(** * AI mock-interview application: question generation, session flow,
      response persistence and result aggregation.

    Shallow embedding of
      - src/lib/gemini.ts                                  (module [Gemini])
      - the server actions in src/app/interviews/new/page.tsx,
        third document, "use server"                       (module [Actions])
      - src/components/interview/interview-session.tsx     (module [Session])
      - src/components/interview/interview-results.tsx     (module [Results])

    Conventions.  JavaScript strings are [string]; arrays are lists;
    [null]/[undefined] is [None]; numbers that are scores are rationals
    ([Q], exact arithmetic in place of IEEE doubles; [Results.Binary64]
    repeats the overall score in binary64, for what depends on the rounding
    of doubles); identifiers handed out by the storage service are natural
    numbers.  A computation that may throw
    returns an [Outcome]; code that talks to the storage service threads the
    store explicitly. *)

From Stdlib Require Import String Ascii List Arith Bool Lia Permutation.
From Stdlib Require Import QArith.
From Stdlib Require Floats.
Import ListNotations.
Open Scope string_scope.
Open Scope list_scope.
Open Scope nat_scope.

(** ** Outcomes of JavaScript computations *)

Inductive Outcome (A : Type) : Type :=
| Return (a : A)
| Throw (message : string).
Arguments Return {A} a.
Arguments Throw {A} message.

(** [try { body } catch (error) { handler }] for pure bodies. *)
Definition try_catch {A} (body : Outcome A) (handler : string -> Outcome A) : Outcome A :=
  match body with
  | Return a => Return a
  | Throw e => handler e
  end.

(** ** JavaScript string helpers *)

Module JSString.

(** ASCII case folding, as used by a regular expression with the [i] flag
    (code units above 127 never fold onto ASCII letters). *)
Definition to_lower (c : ascii) : ascii :=
  let n := nat_of_ascii c in
  if (65 <=? n) && (n <=? 90) then ascii_of_nat (n + 32) else c.

Fixpoint starts_with_ci (pat s : string) : bool :=
  match pat, s with
  | EmptyString, _ => true
  | String p pat', String c s' =>
      Ascii.eqb (to_lower p) (to_lower c) && starts_with_ci pat' s'
  | String _ _, EmptyString => false
  end.

Fixpoint skip (n : nat) (s : string) : string :=
  match n, s with
  | 0, _ => s
  | S n', String _ s' => skip n' s'
  | S _, EmptyString => EmptyString
  end.

(** The alternative of [a1|a2|...] that matches at the start of [s]:
    alternatives are tried from left to right. *)
Definition match_here (alts : list string) (s : string) : option string :=
  find (fun a => starts_with_ci a s) alts.

(** [s.replace(/a1|a2|.../i, by_)]: no [g] flag, so only the leftmost match
    is replaced; [by_] holds no [$] pattern. *)
Fixpoint replace (alts : list string) (by_ : string) (s : string) : string :=
  match match_here alts s with
  | Some a => (by_ ++ skip (String.length a) s)%string
  | None =>
      match s with
      | EmptyString => EmptyString
      | String c s' => String c (replace alts by_ s')
      end
  end.

(** Truthiness of a string: the empty string is falsy. *)
Definition truthy (s : string) : bool :=
  match s with EmptyString => false | String _ _ => true end.

(** [o || dflt] for [string | null]. *)
Definition or_else (o : option string) (dflt : string) : string :=
  match o with
  | Some s => if truthy s then s else dflt
  | None => dflt
  end.

(** [o || null] for a string read from a form. *)
Definition or_null (s : string) : option string :=
  if truthy s then Some s else None.

(** [if (o)] for [string | null]. *)
Definition truthy_opt (o : option string) : bool :=
  match o with Some s => truthy s | None => false end.

End JSString.

(** ** src/lib/gemini.ts *)

Module Gemini.

Record Question := mkQuestion {
  question_text : string;
  question_type : string
}.

(** *** The random source

    [Math.random()] returns a number in the half-open interval [0, 1).  A draw
    is kept as the rational [rnum / (rnum + rgap + 1)], which is in that
    interval by construction. *)
Record Random01 := mkRandom { rnum : nat; rgap : nat }.

(** [Math.floor(r * n)] *)
Definition floor_times (r : Random01) (n : nat) : nat :=
  (rnum r * n) / (rnum r + rgap r + 1).

(** *** Arrays *)

Fixpoint update {A} (i : nat) (x : A) (l : list A) : list A :=
  match l, i with
  | [], _ => []
  | _ :: t, 0 => x :: t
  | h :: t, S i' => h :: update i' x t
  end.

(** [[a[i], a[j]] = [a[j], a[i]]]: both reads happen before the two writes.
    In [shuffleArray] both indices are inside the array (see
    [floor_times_le]); outside, JavaScript would grow the array with holes,
    which does not arise and is left as no change. *)
Definition swap {A} (i j : nat) (a : list A) : list A :=
  match nth_error a i, nth_error a j with
  | Some ai, Some aj => update j ai (update i aj a)
  | _, _ => a
  end.

(** The loop of [shuffleArray]: [i] runs from [length - 1] down to [1]; the
    [k]-th iteration consumes the [k]-th draw of the random source. *)
Fixpoint shuffle_loop {A} (random : nat -> Random01) (k i : nat) (newArray : list A)
  : list A :=
  match i with
  | 0 => newArray
  | S i' =>
      let j := floor_times (random k) (i + 1) in
      shuffle_loop random (S k) i' (swap i j newArray)
  end.

Definition shuffleArray {A} (random : nat -> Random01) (array : list A) : list A :=
  shuffle_loop random 0 (length array - 1) array.

(** *** generateDefaultQuestions *)

Definition baseQuestions (jobRole : string) (industry : option string) : list Question :=
  [ mkQuestion ("Tell me about your experience as a " ++ jobRole ++ ".") "behavioral";
    mkQuestion ("What are the key skills required for a " ++ jobRole ++ " position?") "general";
    mkQuestion "Describe a challenging situation you faced in your previous role." "behavioral";
    mkQuestion ("How do you stay updated with the latest trends in "
                  ++ JSString.or_else industry "your field" ++ "?") "general";
    mkQuestion "Where do you see yourself in 5 years?" "general" ].

(** The own properties of the object literal [roleSpecificQuestions]. *)
Definition roleSpecificQuestions : list (string * list Question) :=
  [ ("Software Engineer",
     [ mkQuestion "Explain the difference between a stack and a queue. When would you use each?" "technical";
       mkQuestion "How would you optimize a slow-loading web application?" "technical";
       mkQuestion "Describe a time when you had to refactor a large codebase. What approach did you take?" "behavioral";
       mkQuestion "How do you ensure your code is maintainable and readable for other developers?" "situational" ]);
    ("Product Manager",
     [ mkQuestion "How do you prioritize features in your product roadmap?" "situational";
       mkQuestion "Describe a time when you had to make a difficult product decision based on user feedback." "behavioral";
       mkQuestion "How do you measure the success of a product feature after launch?" "technical";
       mkQuestion "How do you balance stakeholder requests with user needs?" "situational" ]);
    ("Data Scientist",
     [ mkQuestion "Explain the difference between supervised and unsupervised learning." "technical";
       mkQuestion "How would you handle missing data in a dataset?" "technical";
       mkQuestion "Describe a time when your data analysis led to a significant business decision." "behavioral";
       mkQuestion "How do you communicate complex data findings to non-technical stakeholders?" "situational" ]);
    ("UX Designer",
     [ mkQuestion "Walk me through your design process from research to implementation." "technical";
       mkQuestion "How do you incorporate user feedback into your designs?" "situational";
       mkQuestion "Describe a time when you had to defend a design decision to stakeholders." "behavioral";
       mkQuestion "How do you balance aesthetic design with usability?" "situational" ]);
    ("Marketing Manager",
     [ mkQuestion "How do you measure the success of a marketing campaign?" "technical";
       mkQuestion "Describe a marketing campaign you led that didn't meet expectations. What did you learn?" "behavioral";
       mkQuestion "How would you allocate a limited marketing budget across different channels?" "situational";
       mkQuestion "How do you stay ahead of changing marketing trends and technologies?" "general" ]);
    ("Sales Representative",
     [ mkQuestion "How do you handle objections from potential customers?" "situational";
       mkQuestion "Describe your sales process from prospecting to closing." "technical";
       mkQuestion "Tell me about a time when you lost a sale. What did you learn?" "behavioral";
       mkQuestion "How do you build long-term relationships with clients?" "situational" ]);
    ("Project Manager",
     [ mkQuestion "How do you handle scope creep in a project?" "situational";
       mkQuestion "Describe a time when you had to manage a project with limited resources." "behavioral";
       mkQuestion "What project management methodologies are you familiar with, and when do you use each?" "technical";
       mkQuestion "How do you communicate project status to stakeholders?" "situational" ]);
    ("Customer Support Specialist",
     [ mkQuestion "How do you handle an angry or frustrated customer?" "situational";
       mkQuestion "Describe a time when you went above and beyond for a customer." "behavioral";
       mkQuestion "How do you prioritize multiple customer issues?" "situational";
       mkQuestion "What metrics do you use to measure customer satisfaction?" "technical" ]) ].

(** [roleSpecificQuestions] is an ordinary object literal, so a property read
    that misses the own properties continues on [Object.prototype].  These
    are the names found there; each of them holds a function (or, for
    [__proto__], the prototype object itself): a truthy value that is not
    iterable. *)
Definition Object_prototype_names : list string :=
  [ "constructor"; "hasOwnProperty"; "isPrototypeOf"; "propertyIsEnumerable";
    "toLocaleString"; "toString"; "valueOf"; "__proto__";
    "__defineGetter__"; "__defineSetter__"; "__lookupGetter__"; "__lookupSetter__" ].

(** What a property read [roleSpecificQuestions[jobRole]] evaluates to. *)
Inductive Property : Type :=
| OwnArray (questions : list Question)
| Inherited (name : string)
| Undefined.

Fixpoint own_property (name : string) (entries : list (string * list Question))
  : option (list Question) :=
  match entries with
  | [] => None
  | (k, v) :: rest => if String.eqb k name then Some v else own_property name rest
  end.

Definition is_inherited (name : string) : bool :=
  existsb (String.eqb name) Object_prototype_names.

Definition get_property (jobRole : string) : Property :=
  match own_property jobRole roleSpecificQuestions with
  | Some qs => OwnArray qs
  | None => if is_inherited jobRole then Inherited jobRole else Undefined
  end.

(** [p || []]: arrays and functions are truthy, [undefined] is not. *)
Definition or_empty_array (p : Property) : Property :=
  match p with
  | Undefined => OwnArray []
  | _ => p
  end.

(** [[...front, ...p]]: spreading needs an iterable; anything else throws a
    [TypeError] (the message is the engine's). *)
Definition spread_after (front : list Question) (p : Property) : Outcome (list Question) :=
  match p with
  | OwnArray qs => Return (front ++ qs)
  | Inherited _ => Throw "specificQuestions is not iterable"
  | Undefined => Throw "specificQuestions is not iterable"
  end.

Definition advanced_text (t : string) : string :=
  JSString.replace ["how"; "explain"; "describe"] "Provide an in-depth explanation of" t.

Definition beginner_text (t : string) : string :=
  JSString.replace ["explain"; "describe"] "Briefly explain" t.

Definition rewrite_technical (f : string -> string) (q : Question) : Question :=
  if String.eqb (question_type q) "technical"
  then mkQuestion (f (question_text q)) (question_type q)
  else q.

(** The block [if (difficulty) { ... }]. *)
Definition adjustDifficulty (difficulty : option string) (combined : list Question)
  : list Question :=
  match difficulty with
  | Some d =>
      if JSString.truthy d then
        if String.eqb d "advanced" then map (rewrite_technical advanced_text) combined
        else if String.eqb d "beginner" then map (rewrite_technical beginner_text) combined
        else combined
      else combined
  | None => combined
  end.

(** [[...baseQuestions, ...specificQuestions]] *)
Definition combinedQuestions (jobRole : string) (industry : option string)
  : Outcome (list Question) :=
  spread_after (baseQuestions jobRole industry) (or_empty_array (get_property jobRole)).

Definition generateDefaultQuestions (random : nat -> Random01)
  (jobRole : string) (industry difficulty : option string) : Outcome (list Question) :=
  match combinedQuestions jobRole industry with
  | Return combined =>
      Return (firstn 7 (shuffleArray random (adjustDifficulty difficulty combined)))
  | Throw e => Throw e
  end.

(** [count] (default 5) is accepted and never read. *)
Definition generateInterviewQuestions (random : nat -> Random01)
  (jobRole : string) (industry difficulty : option string) (count : nat)
  : Outcome (list Question) :=
  try_catch (generateDefaultQuestions random jobRole industry difficulty)
            (fun _ => generateDefaultQuestions random jobRole industry difficulty).

(** *** Default feedback and transcription *)

Record Analysis := mkAnalysis {
  a_feedback_text : string;
  a_strengths : list string;
  a_improvement_areas : list string;
  a_confidence_score : Q
}.

Definition generateDefaultFeedback : Analysis :=
  mkAnalysis
    "Your response addresses the question, but could be more specific and detailed. Consider providing concrete examples from your experience to support your points. Overall, your answer demonstrates a good understanding of the topic, but adding more depth would make it stronger."
    ["Good communication"; "Relevant points"; "Clear structure"]
    ["Add more specific examples"; "Elaborate on key points"; "Connect to the job role"]
    (7 # 10).

Inductive ResponseType := text | video | audio.

Definition analyzeResponse (question response : string) (responseType : ResponseType)
  (jobRole : string) : Outcome Analysis :=
  try_catch (Return generateDefaultFeedback) (fun _ => Return generateDefaultFeedback).

Definition simulated_transcription : string :=
  "I believe I'm well-suited for this position because of my experience and skills in this field. I've worked on similar projects in the past and have developed the necessary expertise to handle the challenges of this role effectively.".

Definition transcribeMedia {Url} (mediaUrl : Url) (mediaType : ResponseType) : Outcome string :=
  try_catch (Return simulated_transcription) (fun _ => Return simulated_transcription).

Definition count_technical (qs : list Question) : nat :=
  length (filter (fun q => String.eqb (question_type q) "technical") qs).

End Gemini.

Import Gemini.

(** ** A state monad with exceptions

    [M S A] is a computation over a state [S] that returns an [A] or throws;
    the state written before a throw is kept, as the effects of a JavaScript
    function are when it throws half-way. *)

Definition M (S A : Type) : Type := S -> Outcome A * S.

Definition ret {S A} (a : A) : M S A := fun s => (Return a, s).

Definition throw {S A} (e : string) : M S A := fun s => (Throw e, s).

Definition bind {S A B} (m : M S A) (k : A -> M S B) : M S B :=
  fun s =>
    match m s with
    | (Return a, s') => k a s'
    | (Throw e, s') => (Throw e, s')
    end.

Notation "x <- m ;; k" := (bind m (fun x => k))
  (at level 61, m at next level, right associativity).
Notation "m ;; k" := (bind m (fun _ => k))
  (at level 61, right associativity).

(** [try { body } catch (error) { handler error }] *)
Definition catch {S A} (body : M S A) (handler : string -> M S A) : M S A :=
  fun s =>
    match body s with
    | (Return a, s') => (Return a, s')
    | (Throw e, s') => handler e s'
    end.

(** [try { body } finally { cleanup }] with a cleanup that does not throw. *)
Definition finally {S A} (body : M S A) (cleanup : S -> S) : M S A :=
  fun s => let (o, s') := body s in (o, cleanup s').

Definition modify {S} (f : S -> S) : M S unit := fun s => (Return tt, f s).

Definition lift_outcome {S A} (o : Outcome A) : M S A := fun s => (o, s).

(** ** The storage service *)

Module Store.

Definition Id := nat.
Definition Timestamp := nat.
Definition Blob := string.

Inductive Status := in_progress | completed | abandoned.

(** The key of an uploaded object,
    [interviews/${interview.id}/question_${currentQuestion.id}_video.webm]
    (or [_audio.webm]), kept as its three components.  The public URL of an
    object is determined by its key and is kept as the key. *)
Record ObjectKey := mkKey {
  key_interview : Id;
  key_question : Id;
  key_kind : ResponseType
}.
Definition Url := ObjectKey.

Record InterviewRow := mkInterview {
  i_id : Id;
  i_title : string;
  i_job_role : string;
  i_industry : option string;
  i_difficulty : option string;
  i_created_at : Timestamp;
  i_completed_at : option Timestamp;
  i_status : Status
}.

Record QuestionRow := mkQuestionRow {
  q_id : Id;
  q_interview_id : Id;
  q_question_text : string;
  q_question_type : option string;
  q_order_number : nat;
  q_created_at : Timestamp
}.

Record ResponseRow := mkResponse {
  r_id : Id;
  r_question_id : Id;
  r_response_type : ResponseType;
  r_response_text : option string;
  r_media_url : option Url;
  r_created_at : Timestamp
}.

Record FeedbackRow := mkFeedback {
  f_id : Id;
  f_response_id : Id;
  f_feedback_text : string;
  f_improvement_areas : option (list string);
  f_strengths : option (list string);
  f_confidence_score : option Q;
  f_created_at : Timestamp
}.

(** What the storage service answers to each kind of write: [None] when the
    write goes through, [Some message] when it is refused with that error. *)
Record Faults := mkFaults {
  upload_error : option string;
  interviews_insert_error : option string;
  interviews_update_error : option string;
  questions_insert_error : option string;
  responses_insert_error : option string;
  responses_update_error : option string;
  feedback_insert_error : option string;
  feedback_update_error : option string
}.

Definition no_faults : Faults := mkFaults None None None None None None None None.

Record World := mkWorld {
  interviews : list InterviewRow;
  questions : list QuestionRow;
  responses : list ResponseRow;
  feedback : list FeedbackRow;
  objects : list (ObjectKey * Blob);
  next_id : Id;
  clock : Timestamp;
  faults : Faults
}.

Definition empty_world (f : Faults) : World := mkWorld [] [] [] [] [] 1 0 f.

Definition set_interviews (x : list InterviewRow) (w : World) : World :=
  mkWorld x (questions w) (responses w) (feedback w) (objects w) (next_id w) (clock w) (faults w).
Definition set_questions (x : list QuestionRow) (w : World) : World :=
  mkWorld (interviews w) x (responses w) (feedback w) (objects w) (next_id w) (clock w) (faults w).
Definition set_responses (x : list ResponseRow) (w : World) : World :=
  mkWorld (interviews w) (questions w) x (feedback w) (objects w) (next_id w) (clock w) (faults w).
Definition set_feedback (x : list FeedbackRow) (w : World) : World :=
  mkWorld (interviews w) (questions w) (responses w) x (objects w) (next_id w) (clock w) (faults w).
Definition set_objects (x : list (ObjectKey * Blob)) (w : World) : World :=
  mkWorld (interviews w) (questions w) (responses w) (feedback w) x (next_id w) (clock w) (faults w).
Definition set_next_id (x : Id) (w : World) : World :=
  mkWorld (interviews w) (questions w) (responses w) (feedback w) (objects w) x (clock w) (faults w).

(** The answer [{ data, error }] of a request. *)
Record Answer (A : Type) := mkAnswer { data : option A; error : option string }.
Arguments mkAnswer {A} data error.
Arguments data {A} a.
Arguments error {A} a.

(** [.single()]: the row when the filter selects exactly one, else no data. *)
Definition single {A} (rows : list A) : option A :=
  match rows with
  | [x] => Some x
  | _ => None
  end.

(** *** interviews *)

(** [from("interviews").insert({...}).select().single()] *)
Definition insert_interview (title job_role : string) (industry difficulty : option string)
  (status : Status) (w : World) : Answer InterviewRow * World :=
  match interviews_insert_error (faults w) with
  | Some e => (mkAnswer None (Some e), w)
  | None =>
      let row := mkInterview (next_id w) title job_role industry difficulty (clock w) None status in
      (mkAnswer (Some row) None,
       set_next_id (S (next_id w)) (set_interviews (interviews w ++ [row]) w))
  end.

(** [from("interviews").update({ status, completed_at }).eq("id", id)] *)
Definition set_status (status : Status) (completed_at : Timestamp) (id : Id)
  (i : InterviewRow) : InterviewRow :=
  if Nat.eqb (i_id i) id
  then mkInterview (i_id i) (i_title i) (i_job_role i) (i_industry i) (i_difficulty i)
         (i_created_at i) (Some completed_at) status
  else i.

Definition update_interview_status (status : Status) (completed_at : Timestamp) (id : Id)
  (w : World) : Answer unit * World :=
  match interviews_update_error (faults w) with
  | Some e => (mkAnswer None (Some e), w)
  | None =>
      (mkAnswer None None,
       set_interviews (map (set_status status completed_at id) (interviews w)) w)
  end.

(** *** questions *)

Record QuestionInsert := mkQuestionInsert {
  qi_interview_id : Id;
  qi_question_text : string;
  qi_question_type : string;
  qi_order_number : nat
}.

Fixpoint number_rows (first : Id) (now : Timestamp) (rows : list QuestionInsert)
  : list QuestionRow :=
  match rows with
  | [] => []
  | r :: rest =>
      mkQuestionRow first (qi_interview_id r) (qi_question_text r)
        (Some (qi_question_type r)) (qi_order_number r) now
      :: number_rows (S first) now rest
  end.

(** [from("questions").insert(rows)]: one statement, all rows or none. *)
Definition insert_questions (rows : list QuestionInsert) (w : World) : Answer unit * World :=
  match questions_insert_error (faults w) with
  | Some e => (mkAnswer None (Some e), w)
  | None =>
      (mkAnswer None None,
       set_next_id (next_id w + length rows)
         (set_questions (questions w ++ number_rows (next_id w) (clock w) rows) w))
  end.

(** *** responses *)

Definition responses_of_question (questionId : Id) (w : World) : list ResponseRow :=
  filter (fun r => Nat.eqb (r_question_id r) questionId) (responses w).

(** [from("responses").select("id").eq("question_id", questionId).single()] *)
Definition select_response_id (questionId : Id) (w : World) : option Id :=
  option_map r_id (single (responses_of_question questionId w)).

(** [from("responses").insert({...}).select().single()] *)
Definition insert_response (question_id : Id) (response_type : ResponseType)
  (response_text : option string) (media_url : option Url) (w : World)
  : Answer ResponseRow * World :=
  match responses_insert_error (faults w) with
  | Some e => (mkAnswer None (Some e), w)
  | None =>
      let row := mkResponse (next_id w) question_id response_type response_text media_url (clock w) in
      (mkAnswer (Some row) None,
       set_next_id (S (next_id w)) (set_responses (responses w ++ [row]) w))
  end.

Definition update_rows {A} (id_of : A -> Id) (id : Id) (f : A -> A) (rows : list A) : list A :=
  map (fun r => if Nat.eqb (id_of r) id then f r else r) rows.

(** [from("responses").update(fields).eq("id", id)] *)
Definition update_response (f : ResponseRow -> ResponseRow) (id : Id) (w : World)
  : Answer unit * World :=
  match responses_update_error (faults w) with
  | Some e => (mkAnswer None (Some e), w)
  | None => (mkAnswer None None, set_responses (update_rows r_id id f (responses w)) w)
  end.

Definition set_answer (response_type : ResponseType) (response_text : option string)
  (media_url : option Url) (r : ResponseRow) : ResponseRow :=
  mkResponse (r_id r) (r_question_id r) response_type response_text media_url (r_created_at r).

Definition set_response_text (response_text : option string) (r : ResponseRow) : ResponseRow :=
  mkResponse (r_id r) (r_question_id r) (r_response_type r) response_text (r_media_url r)
    (r_created_at r).

(** *** feedback *)

(** [from("feedback").select("id").eq("response_id", responseId).single()] *)
Definition select_feedback_id (responseId : Id) (w : World) : option Id :=
  option_map f_id
    (single (filter (fun f => Nat.eqb (f_response_id f) responseId) (feedback w))).

Definition set_analysis (a : Analysis) (f : FeedbackRow) : FeedbackRow :=
  mkFeedback (f_id f) (f_response_id f) (a_feedback_text a) (Some (a_improvement_areas a))
    (Some (a_strengths a)) (Some (a_confidence_score a)) (f_created_at f).

(** [from("feedback").update({...}).eq("id", id)] *)
Definition update_feedback (a : Analysis) (id : Id) (w : World) : Answer unit * World :=
  match feedback_update_error (faults w) with
  | Some e => (mkAnswer None (Some e), w)
  | None => (mkAnswer None None, set_feedback (update_rows f_id id (set_analysis a) (feedback w)) w)
  end.

(** [from("feedback").insert({...})] *)
Definition insert_feedback (response_id : Id) (a : Analysis) (w : World) : Answer unit * World :=
  match feedback_insert_error (faults w) with
  | Some e => (mkAnswer None (Some e), w)
  | None =>
      let row := mkFeedback (next_id w) response_id (a_feedback_text a)
                   (Some (a_improvement_areas a)) (Some (a_strengths a))
                   (Some (a_confidence_score a)) (clock w) in
      (mkAnswer None None,
       set_next_id (S (next_id w)) (set_feedback (feedback w ++ [row]) w))
  end.

(** *** object storage *)

Definition key_eqb (a b : ObjectKey) : bool :=
  Nat.eqb (key_interview a) (key_interview b)
  && Nat.eqb (key_question a) (key_question b)
  && match key_kind a, key_kind b with
     | text, text | video, video | audio, audio => true
     | _, _ => false
     end.

(** [storage.from("responses").upload(fileName, blob, { upsert: true })] *)
Definition upload (fileName : ObjectKey) (blob : Blob) (w : World) : Answer unit * World :=
  match upload_error (faults w) with
  | Some e => (mkAnswer None (Some e), w)
  | None =>
      (mkAnswer (Some tt) None,
       set_objects ((fileName, blob)
                      :: filter (fun o => negb (key_eqb (fst o) fileName)) (objects w)) w)
  end.

(** [storage.from("responses").getPublicUrl(fileName).data.publicUrl] *)
Definition getPublicUrl (fileName : ObjectKey) : Url := fileName.

End Store.

(** ** The server actions ("use server" part of src/app/interviews/new/page.tsx) *)

Module Actions.

Import Store.

(** The object [{ success: true, ...payload }] or [{ success: false, error }]
    that every action returns. *)
Inductive ActionResult (A : Type) : Type :=
| Success (payload : A)
| Failure (error : string).
Arguments Success {A} payload.
Arguments Failure {A} error.

Definition Action (A : Type) : Type := World -> ActionResult A * World.

(** [try { body } catch (error) { return { success: false, error: error.message } }] *)
Definition action {A} (body : M World A) : Action A :=
  fun w =>
    match body w with
    | (Return a, w') => (Success a, w')
    | (Throw e, w') => (Failure e, w')
    end.

(** [await] of a storage request: it resolves to [{ data, error }], it does
    not throw. *)
Definition request {A} (r : World -> Answer A * World) : M World (Answer A) :=
  fun w => let (a, w') := r w in (Return a, w').

Definition read {A} (f : World -> A) : M World A := fun w => (Return (f w), w).

Definition await {A} (a : Action A) : M World (ActionResult A) :=
  fun w => let (r, w') := a w in (Return r, w').

(** [questions.map((question, index) => ({ ..., order_number: index + 1 }))] *)
Fixpoint questionsToInsert (interviewId : Id) (index : nat) (questions : list Question)
  : list QuestionInsert :=
  match questions with
  | [] => []
  | question :: rest =>
      mkQuestionInsert interviewId (question_text question) (question_type question) (index + 1)
      :: questionsToInsert interviewId (S index) rest
  end.

Definition generateAndSaveQuestions (random : nat -> Random01) (interviewId : Id)
  (jobRole : string) (industry difficulty : option string) (count : nat)
  : Action (list Question) :=
  action (
    questions <- lift_outcome (generateInterviewQuestions random jobRole industry difficulty count) ;;
    ans <- request (insert_questions (questionsToInsert interviewId 0 questions)) ;;
    match error ans with
    | Some e => throw e
    | None => ret questions
    end).

Definition is_media (responseType : ResponseType) : bool :=
  match responseType with
  | video | audio => true
  | text => false
  end.

(** The text that ends up analysed (and stored): the supplied text, or the
    transcription for a media answer that has a URL and no text. *)
Definition transcribes (responseType : ResponseType) (responseText : option string)
  (mediaUrl : option Url) : bool :=
  is_media responseType
  && match mediaUrl with Some _ => true | None => false end
  && negb (JSString.truthy_opt responseText).

Definition analyzeAndSaveFeedback (responseId : Id) (questionText : string)
  (responseText : option string) (responseType : ResponseType) (jobRole : string)
  (mediaUrl : option Url) : Action Analysis :=
  action (
    textToAnalyze <-
      (if transcribes responseType responseText mediaUrl then
         t <- lift_outcome
                (transcribeMedia mediaUrl
                   (match responseType with video => video | _ => audio end)) ;;
         (* the answer of this update is not looked at *)
         _ <- request (update_response (set_response_text (Some t)) responseId) ;;
         ret (Some t)
       else ret responseText) ;;
    if negb (JSString.truthy_opt textToAnalyze) then throw "No text to analyze"
    else
      analysis <- lift_outcome
                    (analyzeResponse questionText (JSString.or_else textToAnalyze "")
                       responseType jobRole) ;;
      existingFeedback <- read (select_feedback_id responseId) ;;
      match existingFeedback with
      | Some id =>
          ans <- request (update_feedback analysis id) ;;
          match error ans with
          | Some e => throw e
          | None => ret analysis
          end
      | None =>
          ans <- request (insert_feedback responseId analysis) ;;
          match error ans with
          | Some e => throw e
          | None => ret analysis
          end
      end).

Record FormData := mkForm {
  form_title : string;
  form_jobRole : string;
  form_industry : string;
  form_difficulty : string
}.

(** [new Error(message || dflt).message] *)
Definition message_or (message dflt : string) : string :=
  if JSString.truthy message then message else dflt.

Definition createInterviewWithQuestions (random : nat -> Random01) (formData : FormData)
  : Action Id :=
  action (
    let title := form_title formData in
    let jobRole := form_jobRole formData in
    let industry := form_industry formData in
    let difficulty := form_difficulty formData in
    ans <- request (insert_interview title jobRole (JSString.or_null industry)
                      (JSString.or_null difficulty) in_progress) ;;
    match error ans, data ans with
    | Some insertError, _ => throw insertError
    | None, None => throw "Cannot read properties of null (reading 'id')"
    | None, Some interview =>
        result <- await (generateAndSaveQuestions random (i_id interview) jobRole
                           (JSString.or_null industry) (JSString.or_null difficulty) 5) ;;
        match result with
        | Failure e => throw (message_or e "Failed to generate questions")
        | Success _ => ret (i_id interview)
        end
    end).

Record SaveArgs := mkSaveArgs {
  questionId : Id;
  responseType : ResponseType;
  responseText : option string;
  mediaUrl : option Url;
  questionText : string;
  jobRole : string
}.

Definition saveResponseWithFeedback (args : SaveArgs) : Action (Id * Analysis) :=
  action (
    existingResponse <- read (select_response_id (questionId args)) ;;
    responseId <-
      match existingResponse with
      | Some id =>
          (* the answer of this update is not looked at *)
          _ <- request (update_response
                          (set_answer (responseType args) (responseText args) (mediaUrl args))
                          id) ;;
          ret id
      | None =>
          ans <- request (insert_response (questionId args) (responseType args)
                            (responseText args) (mediaUrl args)) ;;
          match error ans, data ans with
          | Some e, _ => throw e
          | None, None => throw "Cannot read properties of null (reading 'id')"
          | None, Some newResponse => ret (r_id newResponse)
          end
      end ;;
    result <- await (analyzeAndSaveFeedback responseId (questionText args) (responseText args)
                       (responseType args) (jobRole args) (mediaUrl args)) ;;
    match result with
    | Failure e => throw (message_or e "Failed to analyze response")
    | Success analysis => ret (responseId, analysis)
    end).

Definition completeInterview (interviewId : Id) : Action unit :=
  action (
    now <- read clock ;;
    (* the answer of this update is not looked at *)
    _ <- request (update_interview_status completed now interviewId) ;;
    ret tt).

End Actions.

(** ** src/components/interview/interview-session.tsx *)

Module Session.

Import Store Actions.

Record Toast := mkToast {
  variant : option string;
  title : string;
  description : string
}.

(** The [useState] cells of the component, the toasts shown so far (latest
    first) and the route pushed on the router. *)
Record SessionState := mkState {
  currentQuestionIndex : nat;
  selectedType : ResponseType;      (* the cell [responseType] *)
  textResponse : string;
  videoBlob : option Blob;
  audioBlob : option Blob;
  isSubmitting : bool;
  isCompleted : bool;
  feedbackLoading : bool;
  toasts : list Toast;
  pushed : option Id                (* [/interviews/${id}/results] *)
}.

Definition status_eqb (a b : Status) : bool :=
  match a, b with
  | in_progress, in_progress | completed, completed | abandoned, abandoned => true
  | _, _ => false
  end.

(** The state on mount: the initial values given to [useState].  The
    component receives the interview and its questions, nothing else. *)
Definition InterviewSession (interview : InterviewRow) (questions : list QuestionRow)
  : SessionState :=
  mkState 0 text "" None None false (status_eqb (i_status interview) completed) false [] None.

(** The browser: the component's state and the remote store. *)
Definition Client : Type := SessionState * World.

Definition set_state (f : SessionState -> SessionState) : M Client unit :=
  modify (fun c => (f (fst c), snd c)).

Definition setCurrentQuestionIndex (n : nat) (s : SessionState) : SessionState :=
  mkState n (selectedType s) (textResponse s) (videoBlob s) (audioBlob s) (isSubmitting s)
    (isCompleted s) (feedbackLoading s) (toasts s) (pushed s).
Definition setIsSubmitting (b : bool) (s : SessionState) : SessionState :=
  mkState (currentQuestionIndex s) (selectedType s) (textResponse s) (videoBlob s) (audioBlob s)
    b (isCompleted s) (feedbackLoading s) (toasts s) (pushed s).
Definition setIsCompleted (b : bool) (s : SessionState) : SessionState :=
  mkState (currentQuestionIndex s) (selectedType s) (textResponse s) (videoBlob s) (audioBlob s)
    (isSubmitting s) b (feedbackLoading s) (toasts s) (pushed s).
Definition setFeedbackLoading (b : bool) (s : SessionState) : SessionState :=
  mkState (currentQuestionIndex s) (selectedType s) (textResponse s) (videoBlob s) (audioBlob s)
    (isSubmitting s) (isCompleted s) b (toasts s) (pushed s).
Definition resetResponseState (s : SessionState) : SessionState :=
  mkState (currentQuestionIndex s) (selectedType s) "" None None
    (isSubmitting s) (isCompleted s) (feedbackLoading s) (toasts s) (pushed s).
Definition toast (t : Toast) (s : SessionState) : SessionState :=
  mkState (currentQuestionIndex s) (selectedType s) (textResponse s) (videoBlob s) (audioBlob s)
    (isSubmitting s) (isCompleted s) (feedbackLoading s) (t :: toasts s) (pushed s).
Definition router_push (id : Id) (s : SessionState) : SessionState :=
  mkState (currentQuestionIndex s) (selectedType s) (textResponse s) (videoBlob s) (audioBlob s)
    (isSubmitting s) (isCompleted s) (feedbackLoading s) (toasts s) (Some id).

(** A call of a server action, or of the storage client, from the browser. *)
Definition call {A} (f : World -> A * World) : M Client A :=
  fun c => let (a, w') := f (snd c) in (Return a, (fst c, w')).

Definition toast_save_failed : Toast :=
  mkToast (Some "destructive") "Error" "Failed to save your response. Please try again.".
Definition toast_analysis_failed : Toast :=
  mkToast (Some "destructive") "Error"
    "Failed to analyze your response. Your answer was saved, but feedback may be incomplete.".
Definition toast_saved : Toast :=
  mkToast None "Response saved" "Your response has been saved and analyzed.".
Definition toast_completed : Toast :=
  mkToast None "Interview completed" "Your mock interview has been completed successfully.".

(** The upload branch of [saveResponse] for one modality. *)
Definition upload_blob (interview : InterviewRow) (currentQuestion : QuestionRow)
  (kind : ResponseType) (blob : Blob) : M Client (option Url) :=
  let fileName := mkKey (i_id interview) (q_id currentQuestion) kind in
  ans <- call (upload fileName blob) ;;
  match error ans with
  | Some e => throw e
  | None => ret (Some (getPublicUrl fileName))
  end.

(** [saveResponse], for the values [r] captured by the render that created
    the handler. *)
Definition saveResponse (interview : InterviewRow) (currentQuestion : QuestionRow)
  (r : SessionState) : M Client unit :=
  set_state (setFeedbackLoading true) ;;
  answer <-
    match selectedType r, videoBlob r, audioBlob r with
    | text, _, _ => ret (Some (textResponse r), None)
    | video, Some blob, _ =>
        url <- upload_blob interview currentQuestion video blob ;; ret (None, url)
    | audio, _, Some blob =>
        url <- upload_blob interview currentQuestion audio blob ;; ret (None, url)
    | _, _, _ => ret (None, None)
    end ;;
  finally
    (catch
       (result <- call (saveResponseWithFeedback
                          (mkSaveArgs (q_id currentQuestion) (selectedType r) (fst answer)
                             (snd answer) (q_question_text currentQuestion)
                             (i_job_role interview))) ;;
        match result with
        | Failure e => throw (message_or e "Failed to save response")
        | Success _ => set_state (toast toast_saved)
        end)
       (fun _ => set_state (toast toast_analysis_failed)))
    (fun c => (setFeedbackLoading false (fst c), snd c)).

Definition completeInterviewSession (interview : InterviewRow) : M Client unit :=
  result <- call (completeInterview (i_id interview)) ;;
  match result with
  | Failure e => throw (message_or e "Failed to complete interview")
  | Success _ =>
      set_state (toast toast_completed) ;;
      set_state (router_push (i_id interview))
  end.

(** [handleNextQuestion]: the handler reads the values of the render it was
    created in ([fst c] on entry) and writes through the setters. *)
Definition handleNextQuestion (interview : InterviewRow) (questions : list QuestionRow)
  : M Client unit :=
  fun c =>
    let r := fst c in
    match nth_error questions (currentQuestionIndex r) with
    | None => (Return tt, c)
    | Some currentQuestion =>
        (set_state (setIsSubmitting true) ;;
         finally
           (catch
              (saveResponse interview currentQuestion r ;;
               if currentQuestionIndex r <? length questions - 1 then
                 set_state (setCurrentQuestionIndex (currentQuestionIndex r + 1)) ;;
                 set_state resetResponseState
               else
                 completeInterviewSession interview ;;
                 set_state (setIsCompleted true))
              (fun _ => set_state (toast toast_save_failed)))
           (fun c' => (setIsSubmitting false (fst c'), snd c'))) c
    end.

(** The browser after the handler has run. *)
Definition after_next (interview : InterviewRow) (questions : list QuestionRow) (c : Client)
  : Client :=
  snd (handleNextQuestion interview questions c).

Definition handlePreviousQuestion (s : SessionState) : SessionState :=
  if 0 <? currentQuestionIndex s
  then resetResponseState (setCurrentQuestionIndex (currentQuestionIndex s - 1) s)
  else s.

(** [progress]: the value of the progress bar. *)
Definition progress (questions : list QuestionRow) (s : SessionState) : Q :=
  ((inject_Z (Z.of_nat (currentQuestionIndex s + 1))
    / inject_Z (Z.of_nat (length questions))) * 100)%Q.

(** The [disabled] attribute of the Next button. *)
Definition next_disabled (s : SessionState) : bool :=
  isSubmitting s
  || (match selectedType s with text => true | _ => false end
      && negb (JSString.truthy (textResponse s)))
  || (match selectedType s with video => true | _ => false end
      && match videoBlob s with Some _ => false | None => true end)
  || (match selectedType s with audio => true | _ => false end
      && match audioBlob s with Some _ => false | None => true end).

End Session.

(** ** src/components/interview/interview-results.tsx *)

Module Results.

Import Store.

Record ResponseWithFeedback := mkResponseWithFeedback {
  response : ResponseRow;
  response_feedback : list FeedbackRow
}.

Record QuestionWithResponses := mkQuestionWithResponses {
  question : QuestionRow;
  question_responses : list ResponseWithFeedback
}.

(** [if (feedback.confidence_score)]: [null] and [0] are falsy. *)
Definition truthy_score (score : option Q) : bool :=
  match score with
  | Some x => negb (Qeq_bool x 0)
  | None => false
  end.

(** The body of the innermost [forEach], on the pair
    [(totalScore, totalResponses)]. *)
Definition add_feedback (acc : Q * nat) (f : FeedbackRow) : Q * nat :=
  match f_confidence_score f with
  | Some x => if truthy_score (Some x) then ((fst acc + x)%Q, S (snd acc)) else acc
  | None => acc
  end.

Definition add_response (acc : Q * nat) (r : ResponseWithFeedback) : Q * nat :=
  fold_left add_feedback (response_feedback r) acc.

Definition add_question (acc : Q * nat) (q : QuestionWithResponses) : Q * nat :=
  fold_left add_response (question_responses q) acc.

Definition getOverallScore (questions : list QuestionWithResponses) : Q :=
  let (totalScore, totalResponses) := fold_left add_question questions (0%Q, 0) in
  if 0 <? totalResponses
  then ((totalScore / inject_Z (Z.of_nat totalResponses)) * 100)%Q
  else 0%Q.

(** [set.add(x)] on a [Set<string>], kept as the list of its elements in
    insertion order (the order [Array.from] returns them in). *)
Definition set_add (x : string) (set : list string) : list string :=
  if existsb (String.eqb x) set then set else set ++ [x].

(** [if (items) { items.forEach((x) => set.add(x)) }] *)
Definition add_items (items : option (list string)) (set : list string) : list string :=
  match items with
  | Some l => fold_left (fun acc x => set_add x acc) l set
  | None => set
  end.

(** The three nested [forEach] of [getAllStrengths] and
    [getAllImprovementAreas], which differ in the field they read. *)
Definition collect (field : FeedbackRow -> option (list string))
  (questions : list QuestionWithResponses) : list string :=
  fold_left
    (fun acc q =>
       fold_left
         (fun acc r =>
            fold_left (fun acc f => add_items (field f) acc) (response_feedback r) acc)
         (question_responses q) acc)
    questions [].

Definition getAllStrengths (questions : list QuestionWithResponses) : list string :=
  collect f_strengths questions.

Definition getAllImprovementAreas (questions : list QuestionWithResponses) : list string :=
  collect f_improvement_areas questions.

(** [handleAccordionChange(value)]: the next value of [openAccordionItems]. *)
Definition handleAccordionChange (value : string) (openAccordionItems : list string)
  : list string :=
  if existsb (String.eqb value) openAccordionItems
  then filter (fun item => negb (String.eqb item value)) openAccordionItems
  else openAccordionItems ++ [value].

(** *** The overall score in binary64

    [getOverallScore] above adds and divides exactly.  The code does so on
    JavaScript numbers, which are IEEE 754 binary64 values: the definitions
    below repeat it on the primitive floats, operation by operation, for what
    is displayed of the score ([Math.round], [getScoreColor]). *)
Module Binary64.

(** A count as a number: exact below 2^53. *)
Definition of_nat (n : nat) : PrimFloat.float :=
  PrimFloat.of_uint63 (Uint63.of_Z (Z.of_nat n)).

(** The number a stored score is read as: the double nearest to its value.
    The quotient of two integers below 2^53 is rounded once, to nearest; in
    particular [7 # 10] is read as the double that the literal [0.7]
    denotes. *)
Definition of_Q (x : Q) : PrimFloat.float :=
  let magnitude :=
    PrimFloat.div (PrimFloat.of_uint63 (Uint63.of_Z (Z.abs (Qnum x))))
                  (PrimFloat.of_uint63 (Uint63.of_Z (Zpos (Qden x)))) in
  if (Qnum x <? 0)%Z then PrimFloat.opp magnitude else magnitude.

(** [if (x)] on a number: [0], [-0] and [NaN] are falsy. *)
Definition truthy (x : PrimFloat.float) : bool :=
  PrimFloat.eqb x x && negb (PrimFloat.eqb x PrimFloat.zero).

Definition add_feedback (acc : PrimFloat.float * nat) (f : FeedbackRow)
  : PrimFloat.float * nat :=
  match f_confidence_score f with
  | Some x =>
      if truthy (of_Q x) then (PrimFloat.add (fst acc) (of_Q x), S (snd acc)) else acc
  | None => acc
  end.

Definition add_response (acc : PrimFloat.float * nat) (r : ResponseWithFeedback)
  : PrimFloat.float * nat :=
  fold_left add_feedback (response_feedback r) acc.

Definition add_question (acc : PrimFloat.float * nat) (q : QuestionWithResponses)
  : PrimFloat.float * nat :=
  fold_left add_response (question_responses q) acc.

Definition getOverallScore (questions : list QuestionWithResponses) : PrimFloat.float :=
  let (totalScore, totalResponses) := fold_left add_question questions (PrimFloat.zero, 0) in
  if 0 <? totalResponses
  then PrimFloat.mul (PrimFloat.div totalScore (of_nat totalResponses)) (of_nat 100)
  else PrimFloat.zero.

(** [score >= 80], [score >= 60]. *)
Definition getScoreColor (score : PrimFloat.float) : string :=
  if PrimFloat.leb (of_nat 80) score then "text-green-500"
  else if PrimFloat.leb (of_nat 60) score then "text-yellow-500"
  else "text-red-500".

(** [Math.round(x)] for a finite [x]: the integer nearest to [x], the upper one
    of the two when [x] is half-way between them, taken on the exact value
    [(-1)^negative * m * 2^e] of the double.  ([-0] is not told apart from
    [0]; [NaN] and the infinities, which [Math.round] returns as they are,
    give [None].) *)
Definition Math_round (x : PrimFloat.float) : option Z :=
  match FloatOps.Prim2SF x with
  | SpecFloat.S754_zero _ => Some 0%Z
  | SpecFloat.S754_finite negative m e =>
      let n := if negative then Zneg m else Zpos m in
      Some (if (0 <=? e)%Z then (n * 2 ^ e)%Z
            else ((2 * n + 2 ^ (- e)) / 2 ^ (1 - e))%Z)
  | _ => None
  end.

End Binary64.

End Results.

(** ** The form of src/app/interviews/new/page.tsx (first document) *)

Module NewInterview.

Import Store Actions Session.

Record InterviewTemplate := mkTemplate {
  t_title : string;
  t_jobRole : string;
  t_industry : string;
  t_difficulty : string
}.

(** The [useState] cells of [NewInterviewPage], the toasts shown so far (latest
    first) and the interview whose page was pushed on the router. *)
Record PageState := mkPage {
  p_title : string;
  p_jobRole : string;
  p_industry : string;
  p_difficulty : string;
  p_isLoading : bool;
  p_error : option string;
  p_activeTab : string;
  p_toasts : list Toast;
  p_pushed : option Id
}.

(** The state on mount. *)
Definition NewInterviewPage : PageState :=
  mkPage "" "" "" "" false None "template" [] None.

Definition handleSelectTemplate (template : InterviewTemplate) (p : PageState) : PageState :=
  mkPage (t_title template) (t_jobRole template) (t_industry template) (t_difficulty template)
    (p_isLoading p) (p_error p) "custom" (p_toasts p) (p_pushed p).

Definition setIsLoading (b : bool) (p : PageState) : PageState :=
  mkPage (p_title p) (p_jobRole p) (p_industry p) (p_difficulty p) b (p_error p)
    (p_activeTab p) (p_toasts p) (p_pushed p).
Definition setError (e : option string) (p : PageState) : PageState :=
  mkPage (p_title p) (p_jobRole p) (p_industry p) (p_difficulty p) (p_isLoading p) e
    (p_activeTab p) (p_toasts p) (p_pushed p).
Definition page_toast (t : Toast) (p : PageState) : PageState :=
  mkPage (p_title p) (p_jobRole p) (p_industry p) (p_difficulty p) (p_isLoading p) (p_error p)
    (p_activeTab p) (t :: p_toasts p) (p_pushed p).
Definition page_push (id : Id) (p : PageState) : PageState :=
  mkPage (p_title p) (p_jobRole p) (p_industry p) (p_difficulty p) (p_isLoading p) (p_error p)
    (p_activeTab p) (p_toasts p) (Some id).

Definition toast_creating : Toast :=
  mkToast None "Creating interview..." "Generating questions for your mock interview.".
Definition toast_created : Toast :=
  mkToast None "Interview created" "Your mock interview has been created successfully.".
Definition toast_create_failed : Toast :=
  mkToast (Some "destructive") "Error" "Failed to create interview. Please try again.".

(** The browser: the page's state and the remote store. *)
Definition Browser : Type := PageState * World.

Definition set_page (f : PageState -> PageState) : M Browser unit :=
  modify (fun c => (f (fst c), snd c)).

Definition call_action {A} (f : World -> A * World) : M Browser A :=
  fun c => let (a, w') := f (snd c) in (Return a, (fst c, w')).

(** [handleSubmit], for the values [r] of the render that created the handler;
    [random] is the random source of the server. *)
Definition handleSubmit (random : nat -> Random01) : M Browser unit :=
  fun c =>
    let r := fst c in
    (set_page (setIsLoading true) ;;
     set_page (setError None) ;;
     finally
       (catch
          (let formData := mkForm (p_title r) (p_jobRole r) (p_industry r) (p_difficulty r) in
           set_page (page_toast toast_creating) ;;
           result <- call_action (createInterviewWithQuestions random formData) ;;
           match result with
           | Failure e => throw (message_or e "Failed to create interview")
           | Success interviewId =>
               set_page (page_toast toast_created) ;;
               set_page (page_push interviewId)
           end)
          (fun message =>
             set_page (setError (Some (message_or message "Failed to create interview"))) ;;
             set_page (page_toast toast_create_failed)))
       (fun c' => (setIsLoading false (fst c'), snd c'))) c.

(** The browser after the handler has run. *)
Definition after_submit (random : nat -> Random01) (c : Browser) : Browser :=
  snd (handleSubmit random c).

End NewInterview.

(** ** The recording timer of src/components/interview/webcam-recorder.tsx *)

From Stdlib Require Import DecimalString DecimalNat.

Module Recorder.

(** [n.toString()] for a non-negative integer. *)
Definition toString (n : nat) : string :=
  DecimalString.NilEmpty.string_of_uint (Nat.to_uint n).

Fixpoint zeros (n : nat) : string :=
  match n with
  | 0 => EmptyString
  | S n' => String "0" (zeros n')
  end.

(** [s.padStart(width, "0")] *)
Definition padStart (width : nat) (s : string) : string :=
  (zeros (width - String.length s) ++ s)%string.

(** [formatTime(seconds)], on the whole seconds counted by the timer. *)
Definition formatTime (seconds : nat) : string :=
  let mins := seconds / 60 in
  let secs := seconds mod 60 in
  (padStart 2 (toString mins) ++ ":" ++ padStart 2 (toString secs))%string.

End Recorder.

(** ** Vocabulary of the properties

    Named states and stores, the notions the statements below are phrased in,
    and the data of the worked examples. *)

Module Vocabulary.

Import Store Actions Session Results.

(** *** Question generation *)

Definition nonempty_text (q : Question) : Prop := question_text q <> "".

Definition always_first : nat -> Random01 := fun _ => mkRandom 0 0.

(** Draws that send the two technical questions of a nine-question list to
    its end: the first draw is 5/9, so that [i = 8] is swapped with
    [j = floor (5/9 * 9) = 5]; the second is 6/8, so that [i = 7] is swapped
    with [j = floor (6/8 * 8) = 6]; every later draw is [i / (i + 1)] for the
    [i] of its turn, so that [j = i] and nothing moves. *)
Definition technical_last : nat -> Random01 :=
  fun k =>
    match k with
    | 0 => mkRandom 5 3
    | 1 => mkRandom 6 1
    | _ => mkRandom (8 - k) 0
    end.

(** *** Response submission and interview creation *)

(** The text a response row ends up with: the transcription for a media
    answer submitted with a URL and without text, the submitted text
    otherwise. *)
Definition stored_text (args : SaveArgs) : option string :=
  if transcribes (responseType args) (responseText args) (mediaUrl args)
  then Some simulated_transcription
  else responseText args.

Definition holds_answer (args : SaveArgs) (row : ResponseRow) : Prop :=
  r_question_id row = questionId args
  /\ r_response_type row = responseType args
  /\ r_media_url row = mediaUrl args
  /\ r_response_text row = stored_text args.

(** The store after one submission. *)
Definition submitted (args : SaveArgs) (w : World) : World :=
  snd (saveResponseWithFeedback args w).

Definition first_answer : SaveArgs :=
  mkSaveArgs 7 text (Some "I have 3 years of experience") None
    "Tell me about your experience as a Nurse." "Nurse".
Definition second_answer : SaveArgs :=
  mkSaveArgs 7 video None (Some (mkKey 1 7 video))
    "Tell me about your experience as a Nurse." "Nurse".

(** The interview row that [createInterviewWithQuestions] inserts. *)
Definition new_interview (formData : FormData) (w : World) : InterviewRow :=
  mkInterview (next_id w) (form_title formData) (form_jobRole formData)
    (JSString.or_null (form_industry formData)) (JSString.or_null (form_difficulty formData))
    (clock w) None in_progress.

Definition questions_refused : Faults :=
  mkFaults None None None (Some "insert refused") None None None None.

(** *** The states a run of [handleNextQuestion] can end in *)

Definition submitting (s : SessionState) : SessionState :=
  setFeedbackLoading true (setIsSubmitting true s).

(** The toast [saveResponse] shows for the result of the server action. *)
Definition result_toast {A} (res : ActionResult A) : Toast :=
  match res with
  | Success _ => toast_saved
  | Failure _ => toast_analysis_failed
  end.

Definition after_save (t : Toast) (s : SessionState) : SessionState :=
  setFeedbackLoading false (toast t (submitting s)).

(** The upload threw: the cursor and the completion flag are as before. *)
Definition refused (s : SessionState) : SessionState :=
  setIsSubmitting false (toast toast_save_failed (submitting s)).

Definition advanced (t : Toast) (s : SessionState) : SessionState :=
  setIsSubmitting false
    (resetResponseState (setCurrentQuestionIndex (currentQuestionIndex s + 1) (after_save t s))).

Definition finished (interview : InterviewRow) (t : Toast) (s : SessionState) : SessionState :=
  setIsSubmitting false
    (setIsCompleted true
       (router_push (i_id interview) (toast toast_completed (after_save t s)))).

(** Does [saveResponse] upload a blob? *)
Definition needs_upload (s : SessionState) : bool :=
  match selectedType s, videoBlob s, audioBlob s with
  | video, Some _, _ => true
  | audio, _, Some _ => true
  | _, _, _ => false
  end.

(** The arguments [saveResponse] passes to the server action. *)
Definition save_args (interview : InterviewRow) (q : QuestionRow) (s : SessionState)
  : SaveArgs :=
  mkSaveArgs (q_id q) (selectedType s)
    (match selectedType s with text => Some (textResponse s) | _ => None end)
    (if needs_upload s
     then Some (getPublicUrl (mkKey (i_id interview) (q_id q) (selectedType s)))
     else None)
    (q_question_text q) (i_job_role interview).

(** The store after the upload, when there is one and it goes through. *)
Definition uploaded (interview : InterviewRow) (q : QuestionRow) (s : SessionState)
  (w : World) : World :=
  match selectedType s, videoBlob s, audioBlob s with
  | video, Some blob, _ => snd (upload (mkKey (i_id interview) (q_id q) video) blob w)
  | audio, _, Some blob => snd (upload (mkKey (i_id interview) (q_id q) audio) blob w)
  | _, _, _ => w
  end.

(** *** A worked interview *)

(** Three questions of one interview, and a store holding them. *)
Definition nurse : InterviewRow :=
  mkInterview 1 "Practice" "Nurse" None None 0 None in_progress.
Definition three_questions : list QuestionRow :=
  [ mkQuestionRow 2 1 "Tell me about your experience as a Nurse." (Some "behavioral") 1 0;
    mkQuestionRow 3 1 "Where do you see yourself in 5 years?" (Some "general") 2 0;
    mkQuestionRow 4 1 "Describe a challenging situation you faced in your previous role."
      (Some "behavioral") 3 0 ].
Definition store_with (rs : list ResponseRow) (f : Faults) : World :=
  mkWorld [nurse] three_questions rs [] [] 5 9 f.

Definition typed (index : nat) (answer : string) : SessionState :=
  mkState index text answer None None false false false [] None.
Definition recorded (index : nat) (blob : Blob) : SessionState :=
  mkState index video "" (Some blob) None false false false [] None.

Definition upload_refused : Faults :=
  mkFaults (Some "bucket unavailable") None None None None None None None.
Definition feedback_refused : Faults :=
  mkFaults None None None None None None (Some "feedback refused") None.
Definition response_update_refused : Faults :=
  mkFaults None None None None None (Some "update refused") None None.

Definition earlier_answer : ResponseRow :=
  mkResponse 5 2 text (Some "I have 2 years of experience") None 3.

(** *** Resuming *)

Definition has_response (rs : list ResponseRow) (q : QuestionRow) : bool :=
  existsb (fun r => Nat.eqb (r_question_id r) (q_id q)) rs.

(** In the words of the specification: the index of the first question with
    no persisted response; it is 0 when no response exists yet. *)
Fixpoint first_unanswered (questions : list QuestionRow) (rs : list ResponseRow) : nat :=
  match questions with
  | [] => 0
  | q :: rest => if has_response rs q then S (first_unanswered rest rs) else 0
  end.

(** *** Scores *)

(** Every feedback record of every response of every question, in the order
    the three nested [forEach] visit them. *)
Definition all_feedback (questions : list QuestionWithResponses) : list FeedbackRow :=
  flat_map (fun q => flat_map response_feedback (question_responses q)) questions.

(** The scores the code counts: those that pass [if (feedback.confidence_score)]. *)
Definition counted_scores (fs : list FeedbackRow) : list Q :=
  flat_map (fun f => match f_confidence_score f with
                     | Some x => if truthy_score (Some x) then [x] else []
                     | None => []
                     end) fs.

(** In the words of the specification: the scores that are present. *)
Definition present_scores (fs : list FeedbackRow) : list Q :=
  flat_map (fun f => match f_confidence_score f with
                     | Some x => [x]
                     | None => []
                     end) fs.

(** In the words of the specification: the mean of the scores scaled to
    0-100, and 0 when there is no score. *)
Definition mean_times_100 (scores : list Q) : Q :=
  if 0 <? length scores
  then ((fold_left Qplus scores 0 / inject_Z (Z.of_nat (length scores))) * 100)%Q
  else 0%Q.

Definition spec_overall_score (questions : list QuestionWithResponses) : Q :=
  mean_times_100 (present_scores (all_feedback questions)).

(** A question with one response that carries one feedback record per
    score. *)
Definition scored (scores : list (option Q)) : QuestionWithResponses :=
  mkQuestionWithResponses
    (mkQuestionRow 2 1 "Where do you see yourself in 5 years?" (Some "general") 1 0)
    [ mkResponseWithFeedback
        (mkResponse 3 2 text (Some "In a senior role") None 0)
        (map (fun score => mkFeedback 4 3 "Feedback" (Some []) (Some []) score 0) scores) ].

(** *** More on question generation *)

(** Does one of the alternatives match somewhere in [s]? *)
Fixpoint occurs (alts : list string) (s : string) : bool :=
  match JSString.match_here alts s with
  | Some _ => true
  | None =>
      match s with
      | EmptyString => false
      | String _ s' => occurs alts s'
      end
  end.

Definition is_technical (q : Question) : bool := String.eqb (question_type q) "technical".

(** *** More on the server actions *)

Definition feedback_of_response (responseId : Id) (w : World) : list FeedbackRow :=
  filter (fun f => Nat.eqb (f_response_id f) responseId) (feedback w).

(** A feedback row that carries the given analysis. *)
Definition holds_analysis (a : Analysis) (f : FeedbackRow) : Prop :=
  f_feedback_text f = a_feedback_text a
  /\ f_strengths f = Some (a_strengths a)
  /\ f_improvement_areas f = Some (a_improvement_areas a)
  /\ f_confidence_score f = Some (a_confidence_score a).

(** Is there a text to analyse: the submitted text, or the transcription of a
    media answer. *)
Definition analyzable (responseType : ResponseType) (responseText : option string)
  (mediaUrl : option Url) : bool :=
  transcribes responseType responseText mediaUrl || JSString.truthy_opt responseText.

(** An interview is completed exactly when it has a completion time. *)
Definition completion_consistent (i : InterviewRow) : Prop :=
  i_status i = completed <-> i_completed_at i <> None.

(** The store after one run of [analyzeAndSaveFeedback]. *)
Definition analysed (responseId : Id) (args : SaveArgs) (w : World) : World :=
  snd (analyzeAndSaveFeedback responseId (questionText args) (responseText args)
         (responseType args) (jobRole args) (mediaUrl args) w).

(** Response ids are unique and the next id handed out is not in use. *)
Definition response_ids_unique (w : World) : Prop :=
  NoDup (map r_id (responses w))
  /\ Forall (fun r => r_id r <> next_id w) (responses w).

(** *** More on the results page *)

(** The items of a field over a list of feedback records, in order, with
    repetitions; a [null] field has none. *)
Definition items_of (field : FeedbackRow -> option (list string)) (fs : list FeedbackRow)
  : list string :=
  flat_map (fun f => match field f with Some l => l | None => [] end) fs.

(** *** Reading a displayed time back *)

(** A text without a colon. *)
Fixpoint colon_free (s : string) : bool :=
  match s with
  | EmptyString => true
  | String c s' => negb (Ascii.eqb c ":") && colon_free s'
  end.

(** The text before and after the first colon. *)
Fixpoint split_colon (s : string) : string * string :=
  match s with
  | EmptyString => (EmptyString, EmptyString)
  | String c s' =>
      if Ascii.eqb c ":" then (EmptyString, s')
      else let (before, after) := split_colon s' in (String c before, after)
  end.

(** The number written by a string of decimal digits. *)
Definition parse_nat (s : string) : option nat :=
  option_map Nat.of_uint (DecimalString.NilEmpty.uint_of_string s).

(** The seconds shown by a text of the form "minutes:seconds". *)
Definition parseTime (s : string) : option nat :=
  let (mins, secs) := split_colon s in
  match parse_nat mins, parse_nat secs with
  | Some m, Some n => Some (m * 60 + n)
  | _, _ => None
  end.

(** *** The overall score as displayed *)

(** What [Binary64.getOverallScore] computes from [n] counted scores that are
    all the score of the default feedback. *)
Definition default_score_binary64 (n : nat) : PrimFloat.float :=
  PrimFloat.mul
    (PrimFloat.div
       (fold_left PrimFloat.add
          (repeat (Binary64.of_Q (a_confidence_score generateDefaultFeedback)) n)
          PrimFloat.zero)
       (Binary64.of_nat n))
    (Binary64.of_nat 100).

(** The summary shows [{Math.round(overallScore)}%] in the colour of
    [getScoreColor(overallScore)]. *)
Definition shown_as_70_in_yellow (score : PrimFloat.float) : bool :=
  match Binary64.Math_round score with
  | Some percent => (percent =? 70)%Z
  | None => false
  end
  && String.eqb (Binary64.getScoreColor score) "text-yellow-500".

End Vocabulary.

(** * Properties *)

(** ** The question generator *)

Module GeminiFacts.

Import Vocabulary.

Lemma floor_times_le (r : Random01) (i : nat) : floor_times r (i + 1) <= i.
Proof.
  unfold floor_times.
  assert (rnum r * (i + 1) / (rnum r + rgap r + 1) < i + 1); [| lia].
  apply Nat.Div0.div_lt_upper_bound. nia.
Qed.

Section Arrays.

Context {A B : Type}.
Implicit Types (a l : list A) (f : A -> B).

Lemma length_update i (x : A) l : length (update i x l) = length l.
Proof.
  revert i; induction l as [| h t IH]; intros [| i]; simpl; auto.
Qed.

Lemma nth_error_update_same i (x y : A) l :
  nth_error l i = Some y -> nth_error (update i x l) i = Some x.
Proof.
  revert i; induction l as [| h t IH]; intros [| i]; simpl; try discriminate; auto.
Qed.

Lemma nth_error_update_other i j (x : A) l :
  i <> j -> nth_error (update i x l) j = nth_error l j.
Proof.
  revert i j; induction l as [| h t IH]; intros [| i] [| j] Hne; simpl; auto;
    try contradiction.
Qed.

(** Overwriting one cell trades the old element for the new one. *)
Lemma update_Permutation i (x y : A) l :
  nth_error l i = Some y -> Permutation (y :: update i x l) (x :: l).
Proof.
  revert i; induction l as [| h t IH]; intros [| i] Hy; simpl in *; try discriminate.
  - injection Hy as ->. apply perm_swap.
  - apply IH in Hy.
    transitivity (h :: y :: update i x t); [apply perm_swap |].
    transitivity (h :: x :: t); [now apply perm_skip | apply perm_swap].
Qed.

Lemma swap_Permutation i j a : Permutation (swap i j a) a.
Proof.
  unfold swap.
  destruct (nth_error a i) as [ai |] eqn:Hi; [| reflexivity].
  destruct (nth_error a j) as [aj |] eqn:Hj; [| reflexivity].
  assert (Hb : nth_error (update i aj a) j = Some aj).
  { destruct (Nat.eq_dec i j) as [-> | Hne].
    - eapply nth_error_update_same; eauto.
    - rewrite nth_error_update_other; auto. }
  apply Permutation_cons_inv with (a := aj).
  transitivity (ai :: update i aj a).
  - now apply update_Permutation.
  - now apply update_Permutation.
Qed.

Lemma shuffle_loop_Permutation random k i a :
  Permutation (shuffle_loop random k i a) a.
Proof.
  revert k a; induction i as [| i IH]; intros k a; simpl; [reflexivity |].
  etransitivity; [apply IH | apply swap_Permutation].
Qed.

(** The Fisher-Yates shuffle returns a permutation of its argument,
    whatever the random source draws. *)
Lemma shuffleArray_Permutation random a : Permutation (shuffleArray random a) a.
Proof. apply shuffle_loop_Permutation. Qed.

Lemma length_shuffleArray random a : length (shuffleArray random a) = length a.
Proof. apply Permutation_length, shuffleArray_Permutation. Qed.

Lemma update_map i (x : A) l f : update i (f x) (map f l) = map f (update i x l).
Proof.
  revert i; induction l as [| h t IH]; intros [| i]; simpl; auto.
  now rewrite IH.
Qed.

Lemma swap_map i j l f : swap i j (map f l) = map f (swap i j l).
Proof.
  unfold swap. rewrite !nth_error_map.
  destruct (nth_error l i) as [ai |]; simpl; [| reflexivity].
  destruct (nth_error l j) as [aj |]; simpl; [| reflexivity].
  now rewrite !update_map.
Qed.

Lemma shuffle_loop_map random k i l f :
  shuffle_loop random k i (map f l) = map f (shuffle_loop random k i l).
Proof.
  revert k l; induction i as [| i IH]; intros k l; simpl; [reflexivity |].
  now rewrite swap_map, IH.
Qed.

(** The positions chosen by the shuffle depend on the random source and on
    the length only, not on the elements. *)
Lemma shuffleArray_map random l f :
  shuffleArray random (map f l) = map f (shuffleArray random l).
Proof.
  unfold shuffleArray. rewrite length_map. apply shuffle_loop_map.
Qed.

End Arrays.

(** *** The difficulty adjustment *)

Lemma question_type_rewrite_technical f q :
  question_type (rewrite_technical f q) = question_type q.
Proof.
  unfold rewrite_technical. destruct (String.eqb _ _); reflexivity.
Qed.

Lemma count_technical_map_rewrite f qs :
  count_technical (map (rewrite_technical f) qs) = count_technical qs.
Proof.
  unfold count_technical.
  induction qs as [| q qs IH]; simpl; [reflexivity |].
  rewrite question_type_rewrite_technical.
  destruct (String.eqb _ _); simpl; now rewrite IH.
Qed.

(** The adjusted list is the image of the combined list under a map that
    keeps every [question_type]. *)
Lemma adjustDifficulty_is_map difficulty :
  exists g, (forall q, question_type (g q) = question_type q)
            /\ forall qs, adjustDifficulty difficulty qs = map g qs.
Proof.
  unfold adjustDifficulty.
  destruct difficulty as [d |].
  - destruct (JSString.truthy d).
    + destruct (String.eqb d "advanced").
      * exists (rewrite_technical advanced_text); split; auto.
        apply question_type_rewrite_technical.
      * destruct (String.eqb d "beginner").
        -- exists (rewrite_technical beginner_text); split; auto.
           apply question_type_rewrite_technical.
        -- exists (fun q => q); split; auto. intros; now rewrite map_id.
    + exists (fun q => q); split; auto. intros; now rewrite map_id.
  - exists (fun q => q); split; auto. intros; now rewrite map_id.
Qed.

Lemma length_adjustDifficulty difficulty qs :
  length (adjustDifficulty difficulty qs) = length qs.
Proof.
  destruct (adjustDifficulty_is_map difficulty) as (g & _ & ->). apply length_map.
Qed.

(** *** Texts stay non-empty *)

Lemma replace_nonempty alts by_ s :
  by_ <> "" -> s <> "" -> JSString.replace alts by_ s <> "".
Proof.
  intros Hby Hs. destruct s as [| c s]; [contradiction |].
  simpl. destruct (JSString.match_here alts (String c s)).
  - destruct by_; [contradiction | discriminate].
  - discriminate.
Qed.

Lemma append_nonempty_l (a b : string) : a <> "" -> (a ++ b)%string <> "".
Proof. destruct a; [contradiction | discriminate]. Qed.

Lemma rewrite_technical_nonempty f q :
  (forall s, s <> "" -> f s <> "") -> nonempty_text q -> nonempty_text (rewrite_technical f q).
Proof.
  unfold nonempty_text, rewrite_technical. intros Hf Hq.
  destruct (String.eqb _ _); simpl; auto.
Qed.

Lemma adjustDifficulty_nonempty difficulty qs :
  Forall nonempty_text qs -> Forall nonempty_text (adjustDifficulty difficulty qs).
Proof.
  intros H. unfold adjustDifficulty.
  destruct difficulty as [d |]; auto.
  destruct (JSString.truthy d); auto.
  destruct (String.eqb d "advanced").
  - apply Forall_map. eapply Forall_impl; [| exact H].
    intros q. apply rewrite_technical_nonempty.
    intros s. apply replace_nonempty. discriminate.
  - destruct (String.eqb d "beginner"); auto.
    apply Forall_map. eapply Forall_impl; [| exact H].
    intros q. apply rewrite_technical_nonempty.
    intros s. apply replace_nonempty. discriminate.
Qed.

Lemma baseQuestions_nonempty jobRole industry :
  Forall nonempty_text (baseQuestions jobRole industry).
Proof.
  unfold baseQuestions, nonempty_text.
  repeat constructor; simpl; discriminate.
Qed.

Lemma roleSpecificQuestions_nonempty :
  Forall (fun entry => Forall nonempty_text (snd entry)) roleSpecificQuestions.
Proof.
  unfold roleSpecificQuestions, nonempty_text.
  repeat constructor; simpl; discriminate.
Qed.

Lemma roleSpecificQuestions_four :
  Forall (fun entry => length (snd entry) = 4) roleSpecificQuestions.
Proof. repeat constructor. Qed.

Lemma own_property_In name entries qs :
  own_property name entries = Some qs -> In (name, qs) entries.
Proof.
  induction entries as [| [k v] rest IH]; simpl; [discriminate |].
  destruct (String.eqb k name) eqn:E.
  - apply String.eqb_eq in E. intros [= ->]. left. now subst.
  - intros H. right. auto.
Qed.

(** What [combinedQuestions] returns for a job role that is an own key,
    for one that is found nowhere, and for one found on the prototype. *)
Lemma combinedQuestions_own jobRole industry qs :
  own_property jobRole roleSpecificQuestions = Some qs ->
  combinedQuestions jobRole industry = Return (baseQuestions jobRole industry ++ qs).
Proof.
  intros H. unfold combinedQuestions, get_property. now rewrite H.
Qed.

Lemma combinedQuestions_unmatched jobRole industry :
  own_property jobRole roleSpecificQuestions = None ->
  is_inherited jobRole = false ->
  combinedQuestions jobRole industry = Return (baseQuestions jobRole industry).
Proof.
  intros H1 H2. unfold combinedQuestions, get_property. rewrite H1, H2.
  unfold or_empty_array, spread_after. now rewrite app_nil_r.
Qed.

(** No name found on the prototype is also an own key. *)
Lemma inherited_not_own :
  Forall (fun name => own_property name roleSpecificQuestions = None) Object_prototype_names.
Proof. repeat constructor. Qed.

Lemma is_inherited_not_own jobRole :
  is_inherited jobRole = true -> own_property jobRole roleSpecificQuestions = None.
Proof.
  unfold is_inherited. intros H.
  apply existsb_exists in H. destruct H as (name & Hin & Heq).
  apply String.eqb_eq in Heq. subst name.
  pose proof inherited_not_own as Hall. rewrite Forall_forall in Hall. auto.
Qed.

Lemma combinedQuestions_inherited jobRole industry :
  is_inherited jobRole = true ->
  combinedQuestions jobRole industry = Throw "specificQuestions is not iterable".
Proof.
  intros H. unfold combinedQuestions, get_property.
  rewrite (is_inherited_not_own _ H), H. reflexivity.
Qed.

End GeminiFacts.

Module GeneratorTheorems.

Import GeminiFacts Vocabulary.

(** [generateInterviewQuestions] is [generateDefaultQuestions]: the handler of
    its [catch] runs the same call again, and [count] is not used. *)
Lemma generateInterviewQuestions_eq random jobRole industry difficulty count :
  generateInterviewQuestions random jobRole industry difficulty count
  = generateDefaultQuestions random jobRole industry difficulty.
Proof.
  unfold generateInterviewQuestions, try_catch.
  destruct (generateDefaultQuestions random jobRole industry difficulty); reflexivity.
Qed.

(** For a job role that does not name a member of [Object.prototype], the
    combined list is the five base questions followed by the role's own
    questions, if any. *)
Lemma combinedQuestions_returns jobRole industry :
  is_inherited jobRole = false ->
  exists specific,
    combinedQuestions jobRole industry = Return (baseQuestions jobRole industry ++ specific)
    /\ Forall nonempty_text specific
    /\ (own_property jobRole roleSpecificQuestions = None -> specific = []).
Proof.
  intros Hvalid.
  destruct (own_property jobRole roleSpecificQuestions) as [qs |] eqn:E.
  - exists qs. split; [now apply combinedQuestions_own |]. split; [| discriminate].
    apply own_property_In in E.
    pose proof roleSpecificQuestions_nonempty as H.
    rewrite Forall_forall in H. exact (H _ E).
  - exists []. rewrite app_nil_r. split; [now apply combinedQuestions_unmatched |].
    split; [constructor | reflexivity].
Qed.

Lemma Forall_firstn {A} (P : A -> Prop) n (l : list A) : Forall P l -> Forall P (firstn n l).
Proof.
  intros H. rewrite Forall_forall in *. intros x Hx. apply H.
  rewrite <- (firstn_skipn n l). apply in_or_app. now left.
Qed.

Lemma generated_shape random jobRole industry difficulty :
  is_inherited jobRole = false ->
  exists qs,
    generateDefaultQuestions random jobRole industry difficulty = Return qs
    /\ 5 <= length qs <= 7
    /\ Forall nonempty_text qs.
Proof.
  intros Hvalid.
  destruct (combinedQuestions_returns jobRole industry Hvalid) as (specific & Hc & Hne & _).
  unfold generateDefaultQuestions. rewrite Hc.
  eexists; split; [reflexivity |]. split.
  - rewrite length_firstn, length_shuffleArray, length_adjustDifficulty, length_app.
    assert (Hbase : length (baseQuestions jobRole industry) = 5) by reflexivity.
    lia.
  - apply Forall_firstn.
    assert (Hall : Forall nonempty_text
                     (adjustDifficulty difficulty (baseQuestions jobRole industry ++ specific))).
    { apply adjustDifficulty_nonempty. apply Forall_app. split; auto.
      apply baseQuestions_nonempty. }
    rewrite Forall_forall in *. intros q Hq. apply Hall.
    eapply Permutation_in; [apply shuffleArray_Permutation | exact Hq].
Qed.

(** A job role with no entry of its own, and no namesake on the prototype,
    gets exactly the five base questions in some order. *)
Lemma unmatched_role_permutes_base random jobRole industry difficulty count :
  own_property jobRole roleSpecificQuestions = None ->
  is_inherited jobRole = false ->
  exists qs,
    generateInterviewQuestions random jobRole industry difficulty count = Return qs
    /\ Permutation qs (baseQuestions jobRole industry).
Proof.
  intros Hown Hvalid.
  rewrite generateInterviewQuestions_eq. unfold generateDefaultQuestions.
  rewrite (combinedQuestions_unmatched _ _ Hown Hvalid).
  eexists; split; [reflexivity |].
  assert (Hadj : adjustDifficulty difficulty (baseQuestions jobRole industry)
                 = baseQuestions jobRole industry).
  { unfold adjustDifficulty.
    destruct difficulty as [d |]; auto.
    destruct (JSString.truthy d); auto.
    destruct (String.eqb d "advanced"); [reflexivity |].
    destruct (String.eqb d "beginner"); reflexivity. }
  rewrite Hadj, firstn_all2.
  - apply shuffleArray_Permutation.
  - rewrite length_shuffleArray. simpl. lia.
Qed.

Lemma count_technical_app qs qs' :
  count_technical (qs ++ qs') = count_technical qs + count_technical qs'.
Proof.
  unfold count_technical. now rewrite filter_app, length_app.
Qed.

Lemma count_technical_Permutation qs qs' :
  Permutation qs qs' -> count_technical qs = count_technical qs'.
Proof.
  unfold count_technical.
  induction 1 as [| q l l' _ IH | q q' l | l l' l'' _ IH _ IH']; simpl.
  - reflexivity.
  - destruct (String.eqb _ _); simpl; now rewrite IH.
  - destruct (String.eqb (question_type q) _), (String.eqb (question_type q') _); reflexivity.
  - now rewrite IH.
Qed.

(** C8 (as amended). For every job role and industry, the "advanced"
    adjustment leaves the number of technical questions of the candidate list
    as it is: the adjusted base + role-specific list has exactly as many as
    the unmodified one.  The generated questions are the first seven of the
    shuffled adjusted list: together with the dropped ones (all beyond the
    seventh) they are a rearrangement of it, so the technical questions
    returned and the technical questions dropped add up to those of the
    unmodified set; none is dropped when the set has at most seven
    questions.  On the same draws of the random source, as many technical
    questions are returned as with no difficulty.  When the combined list
    cannot be built, both calls throw the same error. *)
Theorem advanced_keeps_technical_count_up_to_truncation random jobRole industry count :
  match combinedQuestions jobRole industry with
  | Return combined =>
      count_technical (adjustDifficulty (Some "advanced") combined) = count_technical combined
      /\ exists adv dropped plain,
           generateInterviewQuestions random jobRole industry (Some "advanced") count
           = Return adv
           /\ Permutation (adv ++ dropped) (adjustDifficulty (Some "advanced") combined)
           /\ length adv = Nat.min 7 (length combined)
           /\ length dropped = length combined - 7
           /\ count_technical adv + count_technical dropped = count_technical combined
           /\ generateInterviewQuestions random jobRole industry None count = Return plain
           /\ count_technical plain = count_technical adv
  | Throw e =>
      generateInterviewQuestions random jobRole industry None count = Throw e
      /\ generateInterviewQuestions random jobRole industry (Some "advanced") count = Throw e
  end.
Proof.
  rewrite !generateInterviewQuestions_eq. unfold generateDefaultQuestions.
  destruct (combinedQuestions jobRole industry) as [combined | e]; [| split; reflexivity].
  change (adjustDifficulty (Some "advanced") combined)
    with (map (rewrite_technical advanced_text) combined).
  change (adjustDifficulty None combined) with combined.
  set (adjusted := map (rewrite_technical advanced_text) combined).
  assert (Hcount : count_technical adjusted = count_technical combined)
    by apply count_technical_map_rewrite.
  assert (Hlen : length (shuffleArray random adjusted) = length combined)
    by (unfold adjusted; now rewrite length_shuffleArray, length_map).
  split; [exact Hcount |].
  exists (firstn 7 (shuffleArray random adjusted)), (skipn 7 (shuffleArray random adjusted)),
         (firstn 7 (shuffleArray random combined)).
  split; [reflexivity |]. split; [| split; [| split; [| split; [| split]]]].
  - rewrite firstn_skipn. apply shuffleArray_Permutation.
  - now rewrite length_firstn, Hlen.
  - now rewrite length_skipn, Hlen.
  - rewrite <- count_technical_app, firstn_skipn, <- Hcount.
    apply count_technical_Permutation, shuffleArray_Permutation.
  - reflexivity.
  - unfold adjusted.
    now rewrite shuffleArray_map, firstn_map, count_technical_map_rewrite.
Qed.

(** C8 as stated fails: the generated questions can hold fewer technical
    questions than the unmodified set.  For "Software Engineer" the set holds
    two, at positions 5 and 6 of nine; on the draws [technical_last] the
    shuffle moves them to positions 8 and 7, and [slice(0, 7)] drops both:
    seven questions are returned, none of them technical. *)
Lemma advanced_output_loses_technical_questions :
  ~ (forall random jobRole industry count combined adv,
        combinedQuestions jobRole industry = Return combined ->
        generateInterviewQuestions random jobRole industry (Some "advanced") count
        = Return adv ->
        count_technical combined <= count_technical adv).
Proof.
  intros H.
  specialize (H technical_last "Software Engineer" None 5 _ _ eq_refl eq_refl).
  vm_compute in H. lia.
Qed.

(** C9 (as amended). For every job role that does not name a member of
    [Object.prototype], every industry and difficulty and every requested
    count >= 1, the generator returns between 1 and 7 questions (in fact at
    least 5), each with a non-empty text; the requested count is ignored:
    the result is the same for every count. *)
Theorem generator_returns_1_to_7_nonempty random jobRole industry difficulty count :
  is_inherited jobRole = false ->
  1 <= count ->
  exists qs,
    generateInterviewQuestions random jobRole industry difficulty count = Return qs
    /\ 1 <= length qs <= 7
    /\ 5 <= length qs
    /\ Forall (fun q => question_text q <> "") qs
    /\ forall count',
         generateInterviewQuestions random jobRole industry difficulty count' = Return qs.
Proof.
  intros Hvalid _.
  destruct (generated_shape random jobRole industry difficulty Hvalid) as (qs & Hq & Hlen & Hne).
  exists qs. rewrite generateInterviewQuestions_eq.
  repeat split; try lia; auto.
  intros count'. now rewrite generateInterviewQuestions_eq.
Qed.

Lemma generator_returns_1_to_7_nonempty_witness :
  exists qs,
    generateInterviewQuestions always_first "Software Engineer" (Some "Technology")
      (Some "advanced") 5 = Return qs
    /\ 1 <= length qs <= 7
    /\ 5 <= length qs
    /\ Forall (fun q => question_text q <> "") qs
    /\ forall count',
         generateInterviewQuestions always_first "Software Engineer" (Some "Technology")
           (Some "advanced") count' = Return qs.
Proof.
  apply (generator_returns_1_to_7_nonempty always_first "Software Engineer"
           (Some "Technology") (Some "advanced") 5); [reflexivity | lia].
Defined.

(** C9 as stated fails: with the default count of 5 the job role
    "Software Engineer" gets 7 questions. *)
Lemma generator_length_exceeds_count :
  ~ (forall random jobRole industry difficulty count,
        is_inherited jobRole = false ->
        1 <= count ->
        exists qs,
          generateInterviewQuestions random jobRole industry difficulty count = Return qs
          /\ 1 <= length qs <= 7
          /\ Forall (fun q => question_text q <> "") qs
          /\ length qs <= count).
Proof.
  intros H.
  destruct (H always_first "Software Engineer" None None 5 eq_refl (le_n_S _ _ (Nat.le_0_l 4)))
    as (qs & Hq & _ & _ & Hlen).
  vm_compute in Hq. injection Hq as <-. simpl in Hlen. lia.
Qed.

(** C10 at the failing input: the job role "constructor" is found on
    [Object.prototype], the spread throws, the [catch] of
    [generateInterviewQuestions] runs the same code and throws again: no
    question is returned. *)
Theorem generator_throws_on_constructor random industry difficulty count :
  generateInterviewQuestions random "constructor" industry difficulty count
  = Throw "specificQuestions is not iterable".
Proof.
  rewrite generateInterviewQuestions_eq. unfold generateDefaultQuestions.
  now rewrite combinedQuestions_inherited.
Qed.

End GeneratorTheorems.

(** ** The server actions *)

Module ActionFacts.

Import Store Actions Vocabulary.

Arguments simulated_transcription : simpl never.
Arguments generateDefaultFeedback : simpl never.

Ltac unfold_monad :=
  unfold action, bind, ret, throw, request, read, await, lift_outcome, catch, finally, modify.
Ltac unfold_monad_in H :=
  unfold action, bind, ret, throw, request, read, await, lift_outcome, catch, finally, modify in H.

(** Case analysis on every test a computation [H : ... = (res, w')] makes. *)
Ltac cases_of H :=
  repeat match type of H with
         | context [match ?x with _ => _ end] =>
             lazymatch x with
             | context [match _ with _ => _ end] => fail
             | _ => destruct x eqn:?; simpl in H
             end
         end.

(** What [analyzeAndSaveFeedback] leaves untouched, and what it does to the
    responses: the only write is the transcription stored on the response. *)
Lemma analyzeAndSaveFeedback_effect responseId questionText responseText responseType
      jobRole mediaUrl w res w' :
  analyzeAndSaveFeedback responseId questionText responseText responseType jobRole mediaUrl w
  = (res, w') ->
  interviews w' = interviews w /\ questions w' = questions w
  /\ faults w' = faults w /\ clock w' = clock w
  /\ responses w' =
     if transcribes responseType responseText mediaUrl then
       match responses_update_error (faults w) with
       | None => update_rows r_id responseId
                   (set_response_text (Some simulated_transcription)) (responses w)
       | Some _ => responses w
       end
     else responses w.
Proof.
  unfold analyzeAndSaveFeedback, transcribeMedia, analyzeResponse, try_catch.
  unfold_monad.
  unfold update_response, update_feedback, insert_feedback.
  intros H.
  destruct (transcribes responseType responseText mediaUrl) eqn:Htr.
  - destruct (responses_update_error (faults w)) eqn:Hup; simpl in H;
      cases_of H; injection H as <- <-; simpl; auto 10.
  - cases_of H; injection H as <- <-; simpl; auto 10.
Qed.

Arguments analyzeAndSaveFeedback : simpl never.

Ltac use_feedback_effect :=
  repeat match goal with
         | Ha : analyzeAndSaveFeedback _ _ _ _ _ _ _ = _ |- _ =>
             apply analyzeAndSaveFeedback_effect in Ha; simpl in Ha;
             destruct Ha as (? & ? & ? & ? & ?)
         end.

(** [saveResponseWithFeedback] writes to the responses and feedback tables
    only. *)
Lemma saveResponseWithFeedback_frame args w res w' :
  saveResponseWithFeedback args w = (res, w') ->
  interviews w' = interviews w /\ questions w' = questions w
  /\ faults w' = faults w /\ clock w' = clock w.
Proof.
  unfold saveResponseWithFeedback. unfold_monad.
  unfold update_response, insert_response.
  intros H. cases_of H; injection H as <- <-; use_feedback_effect; simpl; auto;
    repeat split; congruence.
Qed.

Lemma filter_update_rows (p : ResponseRow -> bool) id f rows :
  (forall r, p (f r) = p r) ->
  filter p (update_rows r_id id f rows) = update_rows r_id id f (filter p rows).
Proof.
  intros Hp. unfold update_rows.
  induction rows as [| r rows IH]; simpl; [reflexivity |].
  destruct (Nat.eqb (r_id r) id) eqn:E.
  - rewrite Hp. destruct (p r); simpl; rewrite ?E, IH; reflexivity.
  - destruct (p r); simpl; rewrite ?E, IH; reflexivity.
Qed.

Lemma responses_of_question_update qid id f w :
  (forall r, r_question_id (f r) = r_question_id r) ->
  filter (fun r => Nat.eqb (r_question_id r) qid) (update_rows r_id id f (responses w))
  = update_rows r_id id f (responses_of_question qid w).
Proof.
  intros Hf. unfold responses_of_question. apply filter_update_rows.
  intros r. now rewrite Hf.
Qed.

(** One submission, when the store accepts writes to the responses and holds
    at most one response for the question: afterwards it holds exactly one,
    with the submitted answer; it is the old row (same id) when there was
    one and a row with a fresh id otherwise. *)
Lemma upsert_step args w res w' :
  saveResponseWithFeedback args w = (res, w') ->
  responses_insert_error (faults w) = None ->
  responses_update_error (faults w) = None ->
  length (responses_of_question (questionId args) w) <= 1 ->
  exists row,
    responses_of_question (questionId args) w' = [row]
    /\ holds_answer args row
    /\ (forall r0, responses_of_question (questionId args) w = [r0] ->
                   r_id row = r_id r0 /\ r_created_at row = r_created_at r0)
    /\ (responses_of_question (questionId args) w = [] -> r_id row = next_id w).
Proof.
  intros H Hins Hupd Hlen.
  unfold saveResponseWithFeedback in H. unfold_monad_in H.
  unfold select_response_id, insert_response, update_response in H.
  destruct (responses_of_question (questionId args) w) as [| r0 [| r1 rest]] eqn:Hq;
    simpl in Hlen; try lia; simpl in H; rewrite ?Hins, ?Hupd in H; simpl in H.
  - destruct (analyzeAndSaveFeedback _ _ _ _ _ _ _) as [r1 w1] eqn:Ha.
    apply analyzeAndSaveFeedback_effect in Ha. simpl in Ha.
    destruct Ha as (_ & _ & _ & _ & Hr). rewrite Hupd in Hr.
    assert (Hw : responses w' = responses w1)
      by (destruct r1; injection H as <- <-; reflexivity).
    unfold responses_of_question at 1. rewrite Hw, Hr. unfold holds_answer, stored_text.
    destruct (transcribes _ _ _).
    + rewrite filter_update_rows by reflexivity.
      rewrite filter_app. fold (responses_of_question (questionId args) w). rewrite Hq.
      simpl. rewrite ?Nat.eqb_refl. simpl. rewrite ?Nat.eqb_refl.
      eexists; split; [reflexivity |]. simpl. repeat split; intros; simpl; congruence.
    + rewrite filter_app. fold (responses_of_question (questionId args) w). rewrite Hq.
      simpl. rewrite ?Nat.eqb_refl.
      eexists; split; [reflexivity |]. simpl. repeat split; intros; simpl; congruence.
  - destruct (analyzeAndSaveFeedback _ _ _ _ _ _ _) as [r1 w1] eqn:Ha.
    apply analyzeAndSaveFeedback_effect in Ha. simpl in Ha.
    destruct Ha as (_ & _ & _ & _ & Hr). rewrite Hupd in Hr.
    assert (Hw : responses w' = responses w1)
      by (destruct r1; injection H as <- <-; reflexivity).
    assert (Hq0 : r_question_id r0 = questionId args).
    { assert (Hin : In r0 (responses_of_question (questionId args) w))
        by (rewrite Hq; now left).
      apply filter_In in Hin. destruct Hin as [_ Hin]. now apply Nat.eqb_eq in Hin. }
    unfold responses_of_question at 1. rewrite Hw, Hr. unfold holds_answer, stored_text.
    destruct (transcribes _ _ _).
    + rewrite filter_update_rows by reflexivity.
      rewrite responses_of_question_update by reflexivity. rewrite Hq.
      simpl. rewrite ?Nat.eqb_refl. simpl. rewrite ?Nat.eqb_refl.
      eexists; split; [reflexivity |]. simpl. repeat split; intros; simpl; congruence.
    + rewrite responses_of_question_update by reflexivity. rewrite Hq.
      simpl. rewrite ?Nat.eqb_refl.
      eexists; split; [reflexivity |]. simpl. repeat split; intros; simpl; congruence.
Qed.

End ActionFacts.

Module ActionTheorems.

Import Store Actions ActionFacts Vocabulary.

Arguments generateInterviewQuestions : simpl never.

(** C6. Response submission upserts by question id.  In a store that accepts
    writes to the responses and holds at most one response for the
    question: the first submission updates the existing row in place (same
    id) or, when there is none, inserts a row with a fresh id; a second
    submission for the same question updates that row again, so that exactly
    one row is left for the question, with the same id and the latest
    content. *)
Theorem response_upsert_by_question (first second : SaveArgs) (w : World) :
  questionId second = questionId first ->
  responses_insert_error (faults w) = None ->
  responses_update_error (faults w) = None ->
  length (responses_of_question (questionId first) w) <= 1 ->
  exists row1 row2,
    responses_of_question (questionId first) (submitted first w) = [row1]
    /\ holds_answer first row1
    /\ (forall r0, responses_of_question (questionId first) w = [r0] -> r_id row1 = r_id r0)
    /\ (responses_of_question (questionId first) w = [] -> r_id row1 = next_id w)
    /\ responses_of_question (questionId first) (submitted second (submitted first w)) = [row2]
    /\ holds_answer second row2
    /\ r_id row2 = r_id row1.
Proof.
  intros Hq Hins Hupd Hlen. unfold submitted.
  destruct (saveResponseWithFeedback first w) as [res1 w1] eqn:H1. cbn [snd].
  destruct (saveResponseWithFeedback second w1) as [res2 w2] eqn:H2. cbn [snd].
  destruct (saveResponseWithFeedback_frame _ _ _ _ H1) as (_ & _ & Hf & _).
  destruct (upsert_step _ _ _ _ H1 Hins Hupd Hlen) as (row1 & Hr1 & Hans1 & Hold & Hnew).
  rewrite <- Hf in Hins, Hupd. rewrite <- Hq in *.
  assert (Hlen1 : length (responses_of_question (questionId second) w1) <= 1)
    by (rewrite Hr1; simpl; lia).
  destruct (upsert_step _ _ _ _ H2 Hins Hupd Hlen1) as (row2 & Hr2 & Hans2 & Hold2 & _).
  exists row1, row2. repeat split; auto; try apply Hans1; try apply Hans2.
  - intros r0 Hr0. now apply Hold.
  - now apply Hold2.
Qed.

Lemma response_upsert_by_question_witness :
  exists row1 row2,
    responses_of_question 7 (submitted first_answer (empty_world no_faults)) = [row1]
    /\ holds_answer first_answer row1
    /\ (forall r0, responses_of_question 7 (empty_world no_faults) = [r0] -> r_id row1 = r_id r0)
    /\ (responses_of_question 7 (empty_world no_faults) = [] ->
        r_id row1 = next_id (empty_world no_faults))
    /\ responses_of_question 7
         (submitted second_answer (submitted first_answer (empty_world no_faults))) = [row2]
    /\ holds_answer second_answer row2
    /\ r_id row2 = r_id row1.
Proof.
  apply (response_upsert_by_question first_answer second_answer (empty_world no_faults));
    [reflexivity | reflexivity | reflexivity | simpl; lia].
Defined.

(** The at-most-one-response-per-question shape of the store is kept by a
    submission, for every question. *)
Lemma upsert_keeps_at_most_one args w qid :
  responses_insert_error (faults w) = None ->
  responses_update_error (faults w) = None ->
  length (responses_of_question (questionId args) w) <= 1 ->
  length (responses_of_question qid w) <= 1 ->
  length (responses_of_question qid (submitted args w)) <= 1.
Proof.
  intros Hins Hupd Hlen Hother. unfold submitted.
  destruct (saveResponseWithFeedback args w) as [res w'] eqn:H. cbn [snd].
  destruct (Nat.eq_dec qid (questionId args)) as [-> | Hne].
  - destruct (upsert_step _ _ _ _ H Hins Hupd Hlen) as (row & -> & _). simpl. lia.
  - revert H. unfold saveResponseWithFeedback. unfold_monad.
    unfold select_response_id, insert_response, update_response. intros H.
    assert (Hsame : length (responses_of_question qid w')
                    = length (responses_of_question qid w)); [| lia].
    cases_of H; try congruence; injection H as <- <-; use_feedback_effect;
      unfold responses_of_question in *.
    all: assert (Hneq : Nat.eqb (questionId args) qid = false)
           by (apply Nat.eqb_neq; congruence).
    all: match goal with Hr : responses _ = _ |- _ => rewrite Hr; clear Hr end.
    all: try match goal with
             | E : responses_update_error (faults _) = None |- _ => rewrite ?E
             end.
    all: destruct (transcribes _ _ _); rewrite ?Hupd;
      repeat (rewrite filter_update_rows by reflexivity);
      rewrite ?filter_app; simpl; rewrite ?Hneq, ?app_nil_r;
      unfold update_rows; rewrite ?length_map; reflexivity.
Qed.

(** C2 (as amended). Interview creation surfaces every failure to the
    caller, without being atomic and without cleanup.  On success the
    interview row is stored together with all its generated questions.  On
    failure either the interview insert itself was refused and the store is
    unchanged, or the interview row had been inserted before question
    generation or insertion failed: then the row stays in the store, in
    progress, and no question was added. *)
Theorem createInterview_outcome random formData w :
  match createInterviewWithQuestions random formData w with
  | (Success id, w') =>
      id = next_id w
      /\ interviews w' = interviews w ++ [new_interview formData w]
      /\ exists qs,
           generateInterviewQuestions random (form_jobRole formData)
             (JSString.or_null (form_industry formData))
             (JSString.or_null (form_difficulty formData)) 5 = Return qs
           /\ questions w'
              = questions w
                ++ number_rows (S (next_id w)) (clock w) (questionsToInsert (next_id w) 0 qs)
  | (Failure e, w') =>
      (interviews_insert_error (faults w) = Some e /\ w' = w)
      \/ (interviews_insert_error (faults w) = None
          /\ interviews w' = interviews w ++ [new_interview formData w]
          /\ questions w' = questions w)
  end.
Proof.
  destruct (createInterviewWithQuestions random formData w) as [res w'] eqn:H.
  unfold createInterviewWithQuestions, generateAndSaveQuestions in H. unfold_monad_in H.
  unfold insert_interview, insert_questions, new_interview in *.
  cases_of H; injection H as <- <-; simpl in *;
    repeat match goal with
           | E : (_, _) = (_, _) |- _ => injection E as <- <-
           | E : Success _ = Success _ |- _ => injection E as <-
           | E : Failure _ = Failure _ |- _ => injection E as <-
           | E : Some _ = Some _ |- _ => injection E as <-
           | E : Success _ = Failure _ |- _ => discriminate E
           | E : Failure _ = Success _ |- _ => discriminate E
           end;
    simpl; try discriminate; eauto 10.
Qed.

(** C2 as stated fails: when the storage service refuses the questions, the
    call reports the failure and the interview row stays in the store,
    retrievable and without any question; nothing removes it. *)
Lemma creation_leaves_interview_without_questions :
  let w := empty_world questions_refused in
  let (res, w') :=
    createInterviewWithQuestions (fun _ => mkRandom 0 0) (mkForm "Practice" "Nurse" "" "") w in
  res = Failure "insert refused"
  /\ interviews w = []
  /\ interviews w' = [mkInterview 1 "Practice" "Nurse" None None 0 None in_progress]
  /\ filter (fun q => Nat.eqb (q_interview_id q) 1) (questions w') = [].
Proof. vm_compute. auto. Qed.

End ActionTheorems.

(** ** The interview session *)

Module SessionFacts.

Import Store Actions Session ActionFacts Vocabulary.

Arguments saveResponseWithFeedback : simpl never.
Arguments completeInterview : simpl never.

(** [completeInterview] never reports a failure: the answer of its update is
    dropped. *)
Lemma completeInterview_effect id w :
  completeInterview id w
  = (Success tt,
     match interviews_update_error (faults w) with
     | Some _ => w
     | None => set_interviews (map (set_status completed (clock w) id) (interviews w)) w
     end).
Proof.
  unfold completeInterview. unfold_monad. unfold update_interview_status. simpl.
  destruct (interviews_update_error (faults w)); reflexivity.
Qed.

Lemma uploaded_frame interview q s w :
  interviews (uploaded interview q s w) = interviews w
  /\ questions (uploaded interview q s w) = questions w
  /\ responses (uploaded interview q s w) = responses w
  /\ feedback (uploaded interview q s w) = feedback w
  /\ faults (uploaded interview q s w) = faults w
  /\ clock (uploaded interview q s w) = clock w
  /\ next_id (uploaded interview q s w) = next_id w.
Proof.
  unfold uploaded, upload.
  destruct (selectedType s), (videoBlob s), (audioBlob s), (upload_error (faults w));
    simpl; auto 10.
Qed.

Ltac unfold_handler :=
  unfold handleNextQuestion, saveResponse, upload_blob, completeInterviewSession,
    set_state, call;
  unfold_monad.

(** A run of [handleNextQuestion] on a question that exists never throws and
    ends in one of three ways: the upload was refused and nothing else
    happened; or the server action ran and the cursor moved on; or the server
    action ran on the last question and the interview was completed.  The
    result of the server action only selects the toast. *)
Lemma handleNextQuestion_run interview questions s w q :
  nth_error questions (currentQuestionIndex s) = Some q ->
  handleNextQuestion interview questions (s, w)
  = if needs_upload s && match upload_error (faults w) with Some _ => true | None => false end
    then (Return tt, (refused s, w))
    else
      let (res, w1) :=
        saveResponseWithFeedback (save_args interview q s) (uploaded interview q s w) in
      if currentQuestionIndex s <? length questions - 1
      then (Return tt, (advanced (result_toast res) s, w1))
      else (Return tt, (finished interview (result_toast res) s,
                        snd (completeInterview (i_id interview) w1))).
Proof.
  intros Hq. unfold_handler. simpl. rewrite Hq.
  unfold needs_upload, save_args, uploaded, needs_upload, upload.
  destruct (selectedType s) eqn:Ht, (videoBlob s) eqn:Hv, (audioBlob s) eqn:Ha;
    simpl; try destruct (upload_error (faults w)) eqn:Hu; simpl; try reflexivity;
    destruct (saveResponseWithFeedback _ _) as [[payload | e] w1]; simpl;
    destruct (currentQuestionIndex s <? length questions - 1); simpl;
    rewrite ?completeInterview_effect; reflexivity.
Qed.

End SessionFacts.

Module SessionTheorems.

Import Store Actions Session ActionFacts SessionFacts Vocabulary.

(** A failure reported by the server action, when the storage service
    accepts a new response row, comes from the feedback step: the response
    has been written and [analyzeAndSaveFeedback] failed. *)
Lemma action_failure_is_feedback_failure args w e w' :
  responses_insert_error (faults w) = None ->
  saveResponseWithFeedback args w = (Failure e, w') ->
  exists responseId w0 e0 ,
    analyzeAndSaveFeedback responseId (questionText args) (responseText args)
      (responseType args) (jobRole args) (mediaUrl args) w0 = (Failure e0, w')
    /\ e = message_or e0 "Failed to analyze response".
Proof.
  intros Hins H. unfold saveResponseWithFeedback in H. unfold_monad_in H.
  unfold insert_response, update_response in H.
  destruct (select_response_id (questionId args) w); simpl in H; rewrite ?Hins in H;
    cases_of H; try discriminate; injection H as <- <-; eauto 10.
Qed.

(** *** Projections of the three final states *)

Lemma refused_view s :
  currentQuestionIndex (refused s) = currentQuestionIndex s
  /\ isCompleted (refused s) = isCompleted s
  /\ toasts (refused s) = toast_save_failed :: toasts s.
Proof. repeat split. Qed.

Lemma advanced_view t s :
  currentQuestionIndex (advanced t s) = currentQuestionIndex s + 1
  /\ isCompleted (advanced t s) = isCompleted s
  /\ toasts (advanced t s) = t :: toasts s.
Proof. repeat split. Qed.

Lemma finished_view interview t s :
  currentQuestionIndex (finished interview t s) = currentQuestionIndex s
  /\ isCompleted (finished interview t s) = true
  /\ toasts (finished interview t s) = toast_completed :: t :: toasts s.
Proof. repeat split. Qed.

(** C1 (as amended). On a question that exists:
    - when the media upload is refused, the handler reports it (the toast
      "Failed to save your response"), the cursor and the completion flag
      stay as they were and the store is untouched, so the interview stays
      in progress;
    - when the upload, if any, goes through, the storage service accepts a
      new response row and the server action reports a failure (which is
      then a failure of the feedback step), the failure is reported by the
      toast "Failed to analyze your response" and the step goes on all the
      same: the cursor moves to the next question, or, on the last question,
      the interview is completed. *)
Theorem step_failure_behaviour interview questions s w q :
  nth_error questions (currentQuestionIndex s) = Some q ->
  (needs_upload s = true ->
   upload_error (faults w) <> None ->
   after_next interview questions (s, w) = (refused s, w))
  /\ (forall e,
        needs_upload s = false \/ upload_error (faults w) = None ->
        responses_insert_error (faults w) = None ->
        fst (saveResponseWithFeedback (save_args interview q s) (uploaded interview q s w))
        = Failure e ->
        let s' := fst (after_next interview questions (s, w)) in
        (toasts s' = toast_analysis_failed :: toasts s
         /\ currentQuestionIndex s' = currentQuestionIndex s + 1
         /\ currentQuestionIndex s < length questions - 1)
        \/ (toasts s' = toast_completed :: toast_analysis_failed :: toasts s
            /\ isCompleted s' = true
            /\ currentQuestionIndex s = length questions - 1)).
Proof.
  intros Hq. unfold after_next. rewrite (handleNextQuestion_run _ _ _ _ _ Hq). split.
  - intros Hup Herr. rewrite Hup.
    destruct (upload_error (faults w)); [reflexivity | contradiction].
  - intros e Hup _ Hfail.
    assert (Hno : needs_upload s
                  && match upload_error (faults w) with Some _ => true | None => false end
                  = false).
    { destruct Hup as [-> | ->]; [reflexivity | apply andb_false_r]. }
    rewrite Hno.
    destruct (saveResponseWithFeedback _ _) as [res w1]. simpl in Hfail. subst res.
    assert (Hidx : currentQuestionIndex s < length questions)
      by (apply nth_error_Some; congruence).
    destruct (currentQuestionIndex s <? length questions - 1) eqn:Hlt; simpl.
    + apply Nat.ltb_lt in Hlt. left. auto.
    + apply Nat.ltb_ge in Hlt. right. repeat split. lia.
Qed.

Lemma step_failure_behaviour_witness :
  after_next nurse three_questions (recorded 0 "webm", store_with [] upload_refused)
  = (refused (recorded 0 "webm"), store_with [] upload_refused)
  /\ (let s := typed 0 "I have 5 years of experience" in
      let s' := fst (after_next nurse three_questions (s, store_with [] feedback_refused)) in
      (toasts s' = toast_analysis_failed :: toasts s
       /\ currentQuestionIndex s' = currentQuestionIndex s + 1
       /\ currentQuestionIndex s < length three_questions - 1)
      \/ (toasts s' = toast_completed :: toast_analysis_failed :: toasts s
          /\ isCompleted s' = true
          /\ currentQuestionIndex s = length three_questions - 1)).
Proof.
  split.
  - apply (step_failure_behaviour nurse three_questions (recorded 0 "webm")
             (store_with [] upload_refused)
             (mkQuestionRow 2 1 "Tell me about your experience as a Nurse."
                (Some "behavioral") 1 0));
      [reflexivity | reflexivity | discriminate].
  - apply (proj2 (step_failure_behaviour nurse three_questions
                    (typed 0 "I have 5 years of experience")
                    (store_with [] feedback_refused)
                    (mkQuestionRow 2 1 "Tell me about your experience as a Nurse."
                       (Some "behavioral") 1 0) eq_refl)
             "feedback refused");
      [left; reflexivity | reflexivity | vm_compute; reflexivity].
Defined.

(** C1 as stated fails: the storage service refuses the feedback row, the
    server action reports the failure, and the cursor moves from question 0
    to question 1 all the same. *)
Lemma feedback_failure_still_advances :
  let s := typed 0 "I have 5 years of experience" in
  let w := store_with [] feedback_refused in
  fst (saveResponseWithFeedback
         (mkSaveArgs 2 text (Some "I have 5 years of experience") None
            "Tell me about your experience as a Nurse." "Nurse") w)
  = Failure "feedback refused"
  /\ currentQuestionIndex s = 0
  /\ currentQuestionIndex (fst (after_next nurse three_questions (s, w))) = 1.
Proof. vm_compute. auto. Qed.

Lemma set_status_completed now id (i : InterviewRow) :
  i_id i = id ->
  i_id (set_status completed now id i) = id
  /\ i_status (set_status completed now id i) = completed
  /\ i_completed_at (set_status completed now id i) = Some now.
Proof.
  intros <-. unfold set_status. rewrite Nat.eqb_refl. repeat split.
Qed.

(** C5. On a question that exists, with an upload (if any) that goes
    through, and for an interview that is in the store and in progress:
    - advancing on a question that is not the last one moves the cursor by
      exactly one and leaves the stored interview as it is, in progress;
    - advancing on the last question, when the storage service accepts the
      update of the interview, completes the session and leaves the stored
      interview with status completed and a completion time. *)
Theorem advance_transitions interview questions s w q :
  nth_error questions (currentQuestionIndex s) = Some q ->
  needs_upload s = false \/ upload_error (faults w) = None ->
  In interview (interviews w) ->
  i_status interview = in_progress ->
  let c' := after_next interview questions (s, w) in
  (currentQuestionIndex s < length questions - 1 ->
   currentQuestionIndex (fst c') = currentQuestionIndex s + 1
   /\ isCompleted (fst c') = isCompleted s
   /\ interviews (snd c') = interviews w
   /\ In interview (interviews (snd c'))
   /\ i_status interview = in_progress)
  /\ (currentQuestionIndex s = length questions - 1 ->
      interviews_update_error (faults w) = None ->
      isCompleted (fst c') = true
      /\ (exists row,
            In row (interviews (snd c'))
            /\ i_id row = i_id interview
            /\ i_status row = completed
            /\ i_completed_at row = Some (clock w))
      /\ (forall row,
            In row (interviews (snd c')) ->
            i_id row = i_id interview ->
            i_status row = completed /\ i_completed_at row <> None)).
Proof.
  intros Hq Hup Hin Hstatus. unfold after_next.
  rewrite (handleNextQuestion_run _ _ _ _ _ Hq).
  assert (Hno : needs_upload s
                && match upload_error (faults w) with Some _ => true | None => false end
                = false).
  { destruct Hup as [-> | ->]; [reflexivity | apply andb_false_r]. }
  rewrite Hno.
  destruct (saveResponseWithFeedback _ _) as [res w1] eqn:Hsave.
  destruct (saveResponseWithFeedback_frame _ _ _ _ Hsave) as (Hi & _ & Hf & Hc).
  destruct (uploaded_frame interview q s w) as (Hi0 & _ & _ & _ & Hf0 & Hc0 & _).
  rewrite Hi0 in Hi. rewrite Hf0 in Hf. rewrite Hc0 in Hc.
  split.
  - intros Hlt. apply Nat.ltb_lt in Hlt. rewrite Hlt. simpl.
    repeat split; auto. now rewrite Hi.
  - intros Hlast Hupd.
    assert (Hge : (currentQuestionIndex s <? length questions - 1) = false)
      by (apply Nat.ltb_ge; lia).
    rewrite Hge, completeInterview_effect, Hf, Hupd, Hc, Hi. simpl.
    split; [reflexivity |]. split.
    + exists (set_status completed (clock w) (i_id interview) interview).
      split; [now apply in_map |].
      now apply set_status_completed.
    + intros row Hrow Hid. apply in_map_iff in Hrow.
      destruct Hrow as (old & <- & _). unfold set_status in *.
      destruct (Nat.eqb (i_id old) (i_id interview)) eqn:E; simpl.
      * split; [reflexivity | discriminate].
      * apply Nat.eqb_neq in E. contradiction.
Qed.

Lemma advance_transitions_witness :
  (let c' := after_next nurse three_questions
               (typed 0 "I have 5 years of experience", store_with [] no_faults) in
   currentQuestionIndex (fst c') = 0 + 1
   /\ isCompleted (fst c') = false
   /\ interviews (snd c') = [nurse]
   /\ In nurse (interviews (snd c'))
   /\ i_status nurse = in_progress)
  /\ (let c' := after_next nurse three_questions
                  (typed 2 "I stayed calm and asked for help", store_with [] no_faults) in
      isCompleted (fst c') = true
      /\ (exists row,
            In row (interviews (snd c'))
            /\ i_id row = 1
            /\ i_status row = completed
            /\ i_completed_at row = Some 9)
      /\ (forall row,
            In row (interviews (snd c')) ->
            i_id row = 1 ->
            i_status row = completed /\ i_completed_at row <> None)).
Proof.
  split.
  - apply (advance_transitions nurse three_questions
             (typed 0 "I have 5 years of experience") (store_with [] no_faults)
             (mkQuestionRow 2 1 "Tell me about your experience as a Nurse."
                (Some "behavioral") 1 0));
      [reflexivity | left; reflexivity | left; reflexivity | reflexivity | simpl; lia].
  - apply (advance_transitions nurse three_questions
             (typed 2 "I stayed calm and asked for help") (store_with [] no_faults)
             (mkQuestionRow 4 1
                "Describe a challenging situation you faced in your previous role."
                (Some "behavioral") 3 0));
      [reflexivity | left; reflexivity | left; reflexivity | reflexivity
      | reflexivity | reflexivity].
Defined.

(** *** Masking of failures *)

(** Analysis and transcription cannot fail: both return their fixed
    output. *)
Lemma analyzeResponse_returns question answer responseType jobRole :
  analyzeResponse question answer responseType jobRole = Return generateDefaultFeedback.
Proof. reflexivity. Qed.

Lemma transcribeMedia_returns (mediaUrl : option Url) mediaType :
  transcribeMedia mediaUrl mediaType = Return simulated_transcription.
Proof. reflexivity. Qed.

(** A refused insert of a response or of a feedback row is reported by the
    server action. *)
Lemma refused_response_insert_is_reported args w e :
  select_response_id (questionId args) w = None ->
  responses_insert_error (faults w) = Some e ->
  saveResponseWithFeedback args w = (Failure e, w).
Proof.
  intros Hnone Hins. unfold saveResponseWithFeedback. unfold_monad.
  unfold insert_response. rewrite Hnone. simpl. rewrite Hins. reflexivity.
Qed.

(** C4 at the failing input.  The first question already has a response and
    the storage service refuses the update of a response row.  The user
    submits a new answer: the server action reports success, the session
    shows "Response saved" and moves on, and the store still holds the
    earlier answer. *)
Theorem refused_response_update_is_masked :
  let s := typed 0 "I have 5 years of experience" in
  let w := mkWorld [nurse] three_questions [earlier_answer] [] [] 6 9
             response_update_refused in
  let c' := after_next nurse three_questions (s, w) in
  fst (saveResponseWithFeedback
         (mkSaveArgs 2 text (Some "I have 5 years of experience") None
            "Tell me about your experience as a Nurse." "Nurse") w)
  = Success (5, generateDefaultFeedback)
  /\ toasts (fst c') = [toast_saved]
  /\ currentQuestionIndex (fst c') = 1
  /\ responses (snd c') = [earlier_answer].
Proof. vm_compute. auto. Qed.

(** *** Opening a session *)

(** C3 (as amended). When a session is opened, also on an interview that is
    in progress and already has responses, the cursor starts at 0, whatever
    responses are stored; this is the first question without a response
    exactly when the first question has none (or there is no question). *)
Theorem cursor_starts_at_zero interview questions (rs : list ResponseRow) :
  currentQuestionIndex (InterviewSession interview questions) = 0
  /\ (currentQuestionIndex (InterviewSession interview questions)
      = first_unanswered questions rs
      <-> match questions with
          | [] => True
          | q :: _ => has_response rs q = false
          end).
Proof.
  split; [reflexivity |]. simpl.
  destruct questions as [| q rest]; simpl; [tauto |].
  destruct (has_response rs q); split; auto; discriminate.
Qed.

(** C3 as stated fails: with a response stored for the first of the three
    questions, the first question without a response is question 1, and the
    session starts at question 0. *)
Lemma resume_ignores_responses :
  first_unanswered three_questions [earlier_answer] = 1
  /\ currentQuestionIndex (InterviewSession nurse three_questions) = 0
  /\ currentQuestionIndex (InterviewSession nurse three_questions)
     <> first_unanswered three_questions [earlier_answer].
Proof. repeat split. discriminate. Qed.

End SessionTheorems.

(** ** The results page *)

Module ResultsTheorems.

Import Store Results Vocabulary.

Lemma fold_left_flat_map {A B C} (f : A -> C -> A) (g : B -> list C) (l : list B) (a : A) :
  fold_left (fun acc x => fold_left f (g x) acc) l a = fold_left f (flat_map g l) a.
Proof.
  revert a; induction l as [| x l IH]; intros a; simpl; [reflexivity |].
  now rewrite fold_left_app, IH.
Qed.

Lemma flat_map_flat_map {A B C} (f : A -> list B) (g : B -> list C) (l : list A) :
  flat_map g (flat_map f l) = flat_map (fun x => flat_map g (f x)) l.
Proof.
  induction l as [| x l IH]; simpl; [reflexivity |].
  now rewrite flat_map_app, IH.
Qed.

Lemma fold_add_feedback fs t n :
  fold_left add_feedback fs (t, n)
  = (fold_left Qplus (counted_scores fs) t, n + length (counted_scores fs)).
Proof.
  revert t n; induction fs as [| f fs IH]; intros t n; simpl.
  - now rewrite Nat.add_0_r.
  - unfold add_feedback at 2.
    destruct (f_confidence_score f) as [x |]; simpl.
    + destruct (negb (Qeq_bool x 0)); simpl; rewrite IH; simpl; f_equal; lia.
    + apply IH.
Qed.

(** The overall score is the scaled mean of the counted scores. *)
Lemma getOverallScore_counted questions :
  getOverallScore questions = mean_times_100 (counted_scores (all_feedback questions)).
Proof.
  unfold getOverallScore, add_question, add_response, all_feedback.
  rewrite (fold_left_flat_map (fun acc r => fold_left add_feedback (response_feedback r) acc)
             question_responses).
  rewrite (fold_left_flat_map add_feedback response_feedback).
  rewrite flat_map_flat_map, fold_add_feedback. reflexivity.
Qed.

Lemma truthy_score_nonzero x : ~ (x == 0)%Q -> truthy_score (Some x) = true.
Proof.
  intros Hx. unfold truthy_score.
  destruct (Qeq_bool x 0) eqn:E; [| reflexivity].
  apply Qeq_bool_iff in E. contradiction.
Qed.

(** When no stored score is 0, the code computes what the specification
    says: the mean of all present scores, scaled to 0-100, and 0 when there
    is none. *)
Lemma getOverallScore_is_mean_without_zero questions :
  Forall (fun x => ~ (x == 0)%Q) (present_scores (all_feedback questions)) ->
  getOverallScore questions = spec_overall_score questions.
Proof.
  intros Hnz. rewrite getOverallScore_counted. unfold spec_overall_score. f_equal.
  revert Hnz. generalize (all_feedback questions) as fs.
  induction fs as [| f fs IH]; simpl; [reflexivity |].
  destruct (f_confidence_score f) as [x |]; simpl; intros Hnz.
  - inversion Hnz as [| ? ? Hx Hrest]; subst.
    change (negb (Qeq_bool x 0)) with (truthy_score (Some x)).
    rewrite (truthy_score_nonzero _ Hx). simpl. f_equal. now apply IH.
  - now apply IH.
Qed.

Lemma overall_score_without_feedback : getOverallScore [] = 0%Q.
Proof. reflexivity. Qed.

Lemma overall_score_without_score : getOverallScore [scored [None; None]] = 0%Q.
Proof. reflexivity. Qed.

Lemma overall_score_of_half_and_nine_tenths :
  (getOverallScore [scored [Some (1 # 2); Some (9 # 10)]] == 70)%Q.
Proof. reflexivity. Qed.

(** C7 at the failing input.  Two feedback records with the scores 0 and 1:
    both scores are present and their mean, scaled, is 50; the code leaves
    the 0 out of the sum and of the count and answers 100. *)
Theorem zero_score_is_not_counted :
  (getOverallScore [scored [Some 0; Some 1]] == 100)%Q
  /\ (spec_overall_score [scored [Some 0; Some 1]] == 50)%Q
  /\ ~ (getOverallScore [scored [Some 0; Some 1]]
        == spec_overall_score [scored [Some 0; Some 1]])%Q.
Proof.
  repeat split; try reflexivity.
  intros H. vm_compute in H. discriminate H.
Qed.

End ResultsTheorems.

From Stdlib Require Import Lqa.

(** * Further properties *)

(** ** Question generation *)

Module GeneratorProperties.

Import GeminiFacts GeneratorTheorems Vocabulary.

Lemma starts_with_ci_split a s :
  JSString.starts_with_ci a s = true ->
  exists m rest,
    s = (m ++ rest)%string
    /\ String.length m = String.length a
    /\ JSString.skip (String.length a) s = rest.
Proof.
  revert s; induction a as [| p a IH]; intros s H; simpl in *.
  - exists ""%string, s. auto.
  - destruct s as [| c s]; [discriminate |].
    apply andb_true_iff in H. destruct H as [_ H].
    destruct (IH s H) as (m & rest & -> & Hlen & Hskip).
    exists (String c m), rest. simpl. auto.
Qed.

(** X1. The call [text.replace(/a1|a2|.../i, by_)] replaces the leftmost match
    and nothing else: either no alternative matches anywhere and the text is
    returned as it is, or the text splits as [pre ++ m ++ rest], where no
    alternative matches at a position inside [pre], the part [m] is matched
    by the first alternative that matches there, and the result is
    [pre ++ by_ ++ rest]. *)
Theorem replace_leftmost_only alts by_ s :
  (occurs alts s = false /\ JSString.replace alts by_ s = s)
  \/ exists pre a m rest,
       s = (pre ++ m ++ rest)%string
       /\ JSString.match_here alts (m ++ rest)%string = Some a
       /\ String.length m = String.length a
       /\ (forall p1 p2, pre = (p1 ++ p2)%string -> p2 <> ""%string ->
             JSString.match_here alts (p2 ++ m ++ rest)%string = None)
       /\ JSString.replace alts by_ s = (pre ++ by_ ++ rest)%string.
Proof.
  induction s as [| c s IH].
  - simpl. destruct (JSString.match_here alts "") as [a |] eqn:E; [| left; auto].
    right. exists ""%string, a.
    pose proof (find_some _ _ E) as [_ Hstart].
    destruct (starts_with_ci_split _ _ Hstart) as (m & rest & Hs & Hlen & Hskip).
    exists m, rest. rewrite <- Hs, Hskip. repeat split; auto.
    intros p1 p2 Hp Hne. destruct p1; simpl in Hp; [subst; contradiction | discriminate].
  - simpl. destruct (JSString.match_here alts (String c s)) as [a |] eqn:E.
    + right. exists ""%string, a.
      pose proof (find_some _ _ E) as [_ Hstart].
      destruct (starts_with_ci_split _ _ Hstart) as (m & rest & Hs & Hlen & Hskip).
      exists m, rest. rewrite <- Hs, Hskip. repeat split; auto.
      intros p1 p2 Hp Hne. destruct p1; simpl in Hp; [subst; contradiction | discriminate].
    + destruct IH as [[Hno Hsame] | (pre & a & m & rest & Hs & Hm & Hlen & Hpre & Hrep)].
      * left. now rewrite Hsame.
      * right. exists (String c pre), a, m, rest. rewrite Hrep, Hs. simpl.
        repeat split; auto.
        intros p1 p2 Hp Hne. destruct p1 as [| c1 p1]; simpl in Hp.
        -- subst p2. simpl. now rewrite <- Hs.
        -- injection Hp as _ Hp. eapply Hpre; eauto.
Qed.

(** X2. [shuffleArray] returns a rearrangement of its argument, whatever the
    random source draws: the same elements with the same multiplicities, and
    as many of them. *)
Theorem shuffleArray_rearranges {A} (random : nat -> Random01) (array : list A) :
  Permutation (shuffleArray random array) array
  /\ length (shuffleArray random array) = length array
  /\ forall x, In x (shuffleArray random array) <-> In x array.
Proof.
  pose proof (shuffleArray_Permutation random array) as P.
  split; [exact P |]. split; [now apply Permutation_length |].
  intros x. split; apply Permutation_in; [exact P | now apply Permutation_sym].
Qed.

(** X3. The difficulty adjustment works position by position: it keeps the number
    and the order of the questions and every [question_type], it leaves every
    question that is not technical as it is, and for a difficulty other than
    "advanced" and "beginner" it changes nothing at all. *)
Theorem adjustDifficulty_rewrites_technical_text_only difficulty qs :
  Forall2 (fun q q' => question_type q' = question_type q
                       /\ if is_technical q then True else q' = q)
          qs (adjustDifficulty difficulty qs)
  /\ (difficulty = Some "advanced" \/ difficulty = Some "beginner"
      \/ adjustDifficulty difficulty qs = qs).
Proof.
  assert (Hmap : forall f,
             Forall2 (fun q q' => question_type q' = question_type q
                                  /\ if is_technical q then True else q' = q)
                     qs (map (rewrite_technical f) qs)).
  { intros f. induction qs as [| q qs IH]; simpl; constructor; auto.
    unfold rewrite_technical, is_technical.
    destruct (String.eqb (question_type q) "technical"); auto. }
  assert (Hid : Forall2 (fun q q' => question_type q' = question_type q
                                     /\ if is_technical q then True else q' = q) qs qs).
  { clear Hmap. induction qs as [| q qs IH]; constructor; auto.
    destruct (is_technical q); auto. }
  unfold adjustDifficulty.
  destruct difficulty as [d |]; [| split; [exact Hid | auto]].
  destruct (JSString.truthy d); [| split; [exact Hid | auto]].
  destruct (String.eqb d "advanced") eqn:Ea.
  - apply String.eqb_eq in Ea. subst. split; [apply Hmap | auto].
  - destruct (String.eqb d "beginner") eqn:Eb; [| split; [exact Hid | auto]].
    apply String.eqb_eq in Eb. subst. split; [apply Hmap | auto].
Qed.

(** X4. The generator selects without repetition: the questions it returns,
    together with the ones it drops, are a rearrangement of the adjusted
    base + role-specific list, and it returns the first seven of the shuffled
    list or all of them when there are fewer.  When the list cannot be built
    it throws. *)
Theorem generated_is_a_selection random jobRole industry difficulty :
  match combinedQuestions jobRole industry with
  | Return combined =>
      exists qs dropped,
        generateDefaultQuestions random jobRole industry difficulty = Return qs
        /\ Permutation (qs ++ dropped) (adjustDifficulty difficulty combined)
        /\ length qs = Nat.min 7 (length combined)
  | Throw e => generateDefaultQuestions random jobRole industry difficulty = Throw e
  end.
Proof.
  unfold generateDefaultQuestions.
  destruct (combinedQuestions jobRole industry) as [combined | e]; [| reflexivity].
  exists (firstn 7 (shuffleArray random (adjustDifficulty difficulty combined))),
         (skipn 7 (shuffleArray random (adjustDifficulty difficulty combined))).
  split; [reflexivity |]. split.
  - rewrite firstn_skipn. apply shuffleArray_Permutation.
  - now rewrite length_firstn, length_shuffleArray, length_adjustDifficulty.
Qed.

(** X5. How many questions a job role gets: seven when it is one of the eight
    roles of the table (nine candidates, two dropped), five when it is found
    nowhere, none when it names a member of [Object.prototype]. *)
Theorem generated_count_by_role random jobRole industry difficulty count :
  match get_property jobRole with
  | OwnArray _ =>
      exists qs, generateInterviewQuestions random jobRole industry difficulty count = Return qs
                 /\ length qs = 7
  | Undefined =>
      exists qs, generateInterviewQuestions random jobRole industry difficulty count = Return qs
                 /\ length qs = 5
  | Inherited _ =>
      exists e, generateInterviewQuestions random jobRole industry difficulty count = Throw e
  end.
Proof.
  rewrite generateInterviewQuestions_eq.
  unfold generateDefaultQuestions, combinedQuestions, get_property.
  destruct (own_property jobRole roleSpecificQuestions) as [specific |] eqn:Hown.
  - unfold or_empty_array, spread_after. eexists; split; [reflexivity |].
    rewrite length_firstn, length_shuffleArray, length_adjustDifficulty, length_app.
    apply own_property_In in Hown.
    pose proof roleSpecificQuestions_four as Hfour. rewrite Forall_forall in Hfour.
    specialize (Hfour _ Hown). simpl in Hfour. rewrite Hfour. reflexivity.
  - destruct (is_inherited jobRole); unfold or_empty_array, spread_after.
    + eexists; reflexivity.
    + eexists; split; [reflexivity |].
      rewrite length_firstn, length_shuffleArray, length_adjustDifficulty, length_app.
      reflexivity.
Qed.

(** *** Every ordering can be drawn *)

Section Reachability.

Context {A : Type}.
Implicit Types (a l t : list A).

Lemma length_swap i j a : length (swap i j a) = length a.
Proof. apply Permutation_length, swap_Permutation. Qed.

Lemma update_app_l i (x : A) l t :
  i < length l -> update i x (l ++ t) = update i x l ++ t.
Proof.
  revert i; induction l as [| h l IH]; intros [| i] Hi; simpl in *; try lia; auto.
  rewrite IH by lia. reflexivity.
Qed.

Lemma swap_app_l i j l t :
  i < length l -> j < length l -> swap i j (l ++ t) = swap i j l ++ t.
Proof.
  intros Hi Hj. unfold swap.
  rewrite !nth_error_app1 by assumption.
  destruct (nth_error l i) as [ai |] eqn:Ei; [| apply nth_error_None in Ei; lia].
  destruct (nth_error l j) as [aj |] eqn:Ej; [| apply nth_error_None in Ej; lia].
  rewrite update_app_l by assumption.
  rewrite update_app_l by (rewrite length_update; assumption). reflexivity.
Qed.

(** The loop below index [i] does not touch what lies behind the prefix. *)
Lemma shuffle_loop_app_l random k i l t :
  i < length l \/ i = 0 ->
  shuffle_loop random k i (l ++ t) = shuffle_loop random k i l ++ t.
Proof.
  revert k l; induction i as [| i IH]; intros k l Hi; simpl; [reflexivity |].
  destruct Hi as [Hi | Hi]; [| discriminate].
  pose proof (floor_times_le (random k) (S i)) as Hj.
  change (S i + 1) with (S (i + 1)) in Hj.
  rewrite swap_app_l by lia. apply IH. left. rewrite length_swap. lia.
Qed.

Lemma shuffle_loop_ext r1 r2 k1 k2 i a :
  (forall m, r1 (k1 + m) = r2 (k2 + m)) ->
  shuffle_loop r1 k1 i a = shuffle_loop r2 k2 i a.
Proof.
  revert k1 k2 a; induction i as [| i IH]; intros k1 k2 a H; simpl; [reflexivity |].
  pose proof (H 0) as H0. rewrite !Nat.add_0_r in H0. rewrite H0.
  apply IH. intros m. specialize (H (S m)).
  now rewrite <- !plus_n_Sm in H.
Qed.

Lemma floor_times_pick j i : j <= i -> floor_times (mkRandom j (i - j)) (i + 1) = j.
Proof.
  intros Hj. unfold floor_times. simpl.
  replace (j + (i - j) + 1) with (i + 1) by lia.
  apply Nat.div_mul. lia.
Qed.

Lemma nth_error_swap_left i j a x :
  i < length a -> nth_error a j = Some x -> nth_error (swap i j a) i = Some x.
Proof.
  intros Hi Hj. unfold swap.
  destruct (nth_error a i) as [ai |] eqn:Ei; [| apply nth_error_None in Ei; lia].
  rewrite Hj.
  destruct (Nat.eq_dec j i) as [-> | Hne].
  - assert (ai = x) by congruence. subst ai.
    eapply nth_error_update_same. eapply nth_error_update_same. exact Ei.
  - rewrite nth_error_update_other by assumption.
    eapply nth_error_update_same. exact Ei.
Qed.

Lemma split_last a i x :
  length a = S i -> nth_error a i = Some x -> a = firstn i a ++ [x].
Proof.
  intros Hlen Hx.
  rewrite <- (firstn_skipn i a) at 1. f_equal.
  assert (Hskip : length (skipn i a) = 1) by (rewrite length_skipn; lia).
  rewrite <- (firstn_skipn i a) in Hx.
  rewrite nth_error_app2 in Hx by (rewrite length_firstn; lia).
  rewrite length_firstn in Hx. replace (i - Nat.min i (length a)) with 0 in Hx by lia.
  destruct (skipn i a) as [| y [| z rest]]; simpl in *; try discriminate.
  congruence.
Qed.

(** X6. The shuffle can produce every ordering of its argument: for each
    rearrangement of the array there are draws of [Math.random] on which
    [shuffleArray] returns it. *)
Theorem shuffleArray_reaches_every_ordering (array target : list A) :
  Permutation array target ->
  exists random, shuffleArray random array = target.
Proof.
  revert array. induction target as [| x t IH] using rev_ind; intros array Hperm.
  - apply Permutation_sym, Permutation_nil in Hperm. subst.
    exists (fun _ => mkRandom 0 0). reflexivity.
  - pose proof (Permutation_length Hperm) as Hlen.
    rewrite length_app in Hlen. simpl in Hlen.
    assert (Hin : In x array).
    { eapply Permutation_in; [apply Permutation_sym, Hperm |].
      apply in_or_app. right. now left. }
    apply In_nth_error in Hin. destruct Hin as [j Hj].
    assert (Hjlt : j < length array) by (apply nth_error_Some; congruence).
    set (i := length t) in *.
    pose proof (nth_error_swap_left i j array x ltac:(lia) Hj) as Hlast.
    pose proof (split_last (swap i j array) i x
                  ltac:(rewrite length_swap; lia) Hlast) as Hsplit.
    set (l1 := firstn i (swap i j array)) in *.
    assert (Hperm1 : Permutation l1 t).
    { apply Permutation_app_inv_r with (l := [x]). rewrite <- Hsplit.
      etransitivity; [apply swap_Permutation | exact Hperm]. }
    destruct (IH l1 Hperm1) as [random' Hrandom'].
    assert (Hl1 : length l1 = i) by (apply Permutation_length in Hperm1; exact Hperm1).
    exists (fun m => match m with 0 => mkRandom j (i - j) | S m' => random' m' end).
    unfold shuffleArray in *. rewrite Hlen.
    replace (i + 1 - 1) with i by lia.
    destruct i as [| i'] eqn:Hi.
    + simpl. destruct t; [| discriminate]. simpl in *.
      destruct array as [| y [| z rest]]; simpl in *; try lia.
      apply Permutation_length_1_inv in Hperm. now symmetry.
    + cbn [shuffle_loop]. rewrite floor_times_pick by lia. rewrite Hsplit.
      rewrite (shuffle_loop_ext _ random' 1 0) by (intros m; reflexivity).
      rewrite shuffle_loop_app_l by (left; lia).
      rewrite Hl1 in Hrandom'. replace (S i' - 1) with i' in Hrandom' by lia.
      now rewrite Hrandom'.
Qed.

End Reachability.

Lemma shuffleArray_reaches_every_ordering_witness :
  exists random, shuffleArray random [1; 2; 3] = [3; 1; 2].
Proof.
  apply (shuffleArray_reaches_every_ordering [1; 2; 3] [3; 1; 2]).
  change [1; 2; 3] with ([1; 2] ++ [3]).
  apply Permutation_sym, Permutation_cons_append.
Defined.

End GeneratorProperties.

(** ** The server actions *)

Module ActionProperties.

Import Store Actions ActionFacts Vocabulary.

Arguments generateInterviewQuestions : simpl never.

Lemma number_rows_view interviewId first now index qs :
  let rows := number_rows first now (questionsToInsert interviewId index qs) in
  map q_order_number rows = seq (index + 1) (length qs)
  /\ map q_id rows = seq first (length qs)
  /\ map q_question_text rows = map question_text qs
  /\ map q_question_type rows = map (fun q => Some (question_type q)) qs
  /\ Forall (fun r => q_interview_id r = interviewId) rows.
Proof.
  revert first index; induction qs as [| q qs IH]; intros first index; simpl.
  - repeat split; constructor.
  - destruct (IH (S first) (S index)) as (H1 & H2 & H3 & H4 & H5).
    simpl in *. rewrite H1, H2, H3, H4. repeat split; auto.
Qed.

(** X7. [generateAndSaveQuestions] stores all generated questions or none.  On
    success the new rows follow the generated order, with [order_number]
    1, 2, ..., N, the given interview id, and the generated texts and types;
    on failure the store is as before. *)
Theorem saved_questions_are_numbered random interviewId jobRole industry difficulty count w :
  match generateAndSaveQuestions random interviewId jobRole industry difficulty count w with
  | (Success qs, w') =>
      exists rows,
        questions w' = questions w ++ rows
        /\ map q_order_number rows = seq 1 (length qs)
        /\ map q_question_text rows = map question_text qs
        /\ map q_question_type rows = map (fun q => Some (question_type q)) qs
        /\ Forall (fun r => q_interview_id r = interviewId) rows
        /\ generateInterviewQuestions random jobRole industry difficulty count = Return qs
  | (Failure e, w') => w' = w
  end.
Proof.
  unfold generateAndSaveQuestions. unfold_monad. unfold insert_questions.
  destruct (generateInterviewQuestions random jobRole industry difficulty count)
    as [qs | e]; simpl; [| reflexivity].
  destruct (questions_insert_error (faults w)); simpl; [reflexivity |].
  destruct (number_rows_view interviewId (next_id w) (clock w) 0 qs) as (H1 & H2 & H3 & H4 & H5).
  eexists; split; [reflexivity |]. auto.
Qed.

(** X8. With a job role that does not name a member of [Object.prototype] and a
    storage service that accepts the two inserts, creating an interview
    succeeds: the interview is stored in progress together with its five to
    seven questions, numbered from 1, and nothing else is written. *)
Theorem creation_succeeds random formData w :
  is_inherited (form_jobRole formData) = false ->
  interviews_insert_error (faults w) = None ->
  questions_insert_error (faults w) = None ->
  exists w' rows,
    createInterviewWithQuestions random formData w = (Success (next_id w), w')
    /\ interviews w' = interviews w ++ [new_interview formData w]
    /\ questions w' = questions w ++ rows
    /\ 5 <= length rows <= 7
    /\ map q_order_number rows = seq 1 (length rows)
    /\ Forall (fun r => q_interview_id r = next_id w) rows
    /\ responses w' = responses w
    /\ feedback w' = feedback w.
Proof.
  intros Hrole Hi Hq.
  destruct (GeneratorTheorems.generated_shape random (form_jobRole formData)
              (JSString.or_null (form_industry formData))
              (JSString.or_null (form_difficulty formData)) Hrole)
    as (qs & Hgen & Hlen & _).
  rewrite <- (GeneratorTheorems.generateInterviewQuestions_eq _ _ _ _ 5) in Hgen.
  unfold createInterviewWithQuestions, generateAndSaveQuestions. unfold_monad.
  unfold insert_interview, insert_questions. rewrite Hi. simpl. rewrite Hgen. simpl.
  rewrite Hq. simpl.
  destruct (number_rows_view (next_id w) (S (next_id w)) (clock w) 0 qs)
    as (H1 & _ & H3 & _ & H5).
  assert (Hrows : length (number_rows (S (next_id w)) (clock w)
                            (questionsToInsert (next_id w) 0 qs)) = length qs).
  { rewrite <- (length_map q_question_text), H3. apply length_map. }
  eexists; eexists. split; [reflexivity |]. simpl.
  rewrite Hrows. repeat split; auto; lia.
Qed.

Lemma creation_succeeds_witness :
  exists w' rows,
    createInterviewWithQuestions always_first
      (mkForm "Practice" "Data Scientist" "Health" "beginner") (empty_world no_faults)
    = (Success (next_id (empty_world no_faults)), w')
    /\ interviews w'
       = interviews (empty_world no_faults)
         ++ [new_interview (mkForm "Practice" "Data Scientist" "Health" "beginner")
               (empty_world no_faults)]
    /\ questions w' = questions (empty_world no_faults) ++ rows
    /\ 5 <= length rows <= 7
    /\ map q_order_number rows = seq 1 (length rows)
    /\ Forall (fun r => q_interview_id r = next_id (empty_world no_faults)) rows
    /\ responses w' = responses (empty_world no_faults)
    /\ feedback w' = feedback (empty_world no_faults).
Proof.
  apply (creation_succeeds always_first
           (mkForm "Practice" "Data Scientist" "Health" "beginner") (empty_world no_faults));
    reflexivity.
Defined.

(** X9. An answer without analysable text is stored before it is rejected: for a
    question without a response, when there is neither a text nor a media
    URL to transcribe, the action inserts the response row and then fails
    with "No text to analyze"; no feedback is written. *)
Theorem empty_answer_is_stored_then_rejected args w :
  analyzable (responseType args) (responseText args) (mediaUrl args) = false ->
  select_response_id (questionId args) w = None ->
  responses_insert_error (faults w) = None ->
  exists row,
    saveResponseWithFeedback args w
    = (Failure "No text to analyze",
       set_next_id (S (next_id w)) (set_responses (responses w ++ [row]) w))
    /\ r_id row = next_id w
    /\ r_question_id row = questionId args
    /\ r_response_text row = responseText args
    /\ r_media_url row = mediaUrl args.
Proof.
  unfold analyzable. intros Hno Hsel Hins.
  apply orb_false_iff in Hno. destruct Hno as [Htr Htext].
  unfold saveResponseWithFeedback, analyzeAndSaveFeedback. unfold_monad.
  unfold insert_response. rewrite Hsel. simpl. rewrite Hins. simpl.
  rewrite Htr. simpl. rewrite Htext. simpl.
  eexists; split; [reflexivity |]. simpl. auto.
Qed.

Lemma empty_answer_is_stored_then_rejected_witness :
  exists row,
    saveResponseWithFeedback (mkSaveArgs 7 text (Some "") None "Why this role?" "Nurse")
      (empty_world no_faults)
    = (Failure "No text to analyze",
       set_next_id (S (next_id (empty_world no_faults)))
         (set_responses (responses (empty_world no_faults) ++ [row]) (empty_world no_faults)))
    /\ r_id row = next_id (empty_world no_faults)
    /\ r_question_id row = 7
    /\ r_response_text row = Some ""
    /\ r_media_url row = None.
Proof.
  apply (empty_answer_is_stored_then_rejected
           (mkSaveArgs 7 text (Some "") None "Why this role?" "Nurse") (empty_world no_faults));
    reflexivity.
Defined.

Lemma filter_update_rows_by {A} (id_of : A -> Id) (p : A -> bool) id f rows :
  (forall r, p (f r) = p r) ->
  filter p (update_rows id_of id f rows) = update_rows id_of id f (filter p rows).
Proof.
  intros Hp. unfold update_rows.
  induction rows as [| r rows IH]; simpl; [reflexivity |].
  destruct (Nat.eqb (id_of r) id) eqn:E.
  - rewrite Hp. destruct (p r); simpl; rewrite ?E, IH; reflexivity.
  - destruct (p r); simpl; rewrite ?E, IH; reflexivity.
Qed.

(** One analysis, when there is a text to analyse, the storage service accepts
    writes to the feedback table and it holds at most one feedback row for the
    response. *)
Lemma feedback_upsert_step responseId questionText responseText responseType jobRole mediaUrl
      w res w' :
  analyzeAndSaveFeedback responseId questionText responseText responseType jobRole mediaUrl w
  = (res, w') ->
  analyzable responseType responseText mediaUrl = true ->
  feedback_insert_error (faults w) = None ->
  feedback_update_error (faults w) = None ->
  length (feedback_of_response responseId w) <= 1 ->
  res = Success generateDefaultFeedback
  /\ faults w' = faults w
  /\ exists row,
       feedback_of_response responseId w' = [row]
       /\ holds_analysis generateDefaultFeedback row
       /\ (forall f0, feedback_of_response responseId w = [f0] -> f_id row = f_id f0)
       /\ (feedback_of_response responseId w = [] -> f_id row = next_id w).
Proof.
  intros H Han Hins Hupd Hlen.
  unfold analyzable in Han.
  unfold analyzeAndSaveFeedback, transcribeMedia, analyzeResponse, try_catch in H.
  unfold_monad_in H.
  unfold update_response, select_feedback_id, update_feedback, insert_feedback in H.
  unfold feedback_of_response in *.
  assert (Hfb : forall fs, feedback (set_responses fs w) = feedback w) by reflexivity.
  destruct (filter (fun f => Nat.eqb (f_response_id f) responseId) (feedback w))
    as [| f0 [| f1 rest]] eqn:Hf; simpl in Hlen; try lia.
  - destruct (transcribes responseType responseText mediaUrl) eqn:Htr; simpl in Han.
    + destruct (responses_update_error (faults w)) eqn:Hru; simpl in H;
        rewrite ?Hf in H; simpl in H; rewrite Hins in H; simpl in H;
        injection H as <- <-; simpl; rewrite filter_app, Hf; simpl;
        rewrite Nat.eqb_refl; (split; [reflexivity |]); (split; [reflexivity |]);
        eexists; (split; [reflexivity |]); unfold holds_analysis; simpl;
        repeat split; intros; congruence.
    + simpl in H. rewrite Han in H. simpl in H. rewrite Hf in H. simpl in H.
      rewrite Hins in H. simpl in H.
      injection H as <- <-; simpl; rewrite filter_app, Hf; simpl.
      rewrite Nat.eqb_refl. split; [reflexivity |]. split; [reflexivity |].
      eexists; split; [reflexivity |]. unfold holds_analysis; simpl.
      repeat split; intros; congruence.
  - assert (Hrid : f_response_id f0 = responseId).
    { assert (Hin : In f0 (filter (fun f => Nat.eqb (f_response_id f) responseId)
                             (feedback w))) by (rewrite Hf; now left).
      apply filter_In in Hin. destruct Hin as [_ Hin]. now apply Nat.eqb_eq in Hin. }
    destruct (transcribes responseType responseText mediaUrl) eqn:Htr; simpl in Han.
    + destruct (responses_update_error (faults w)) eqn:Hru; simpl in H;
        rewrite ?Hf in H; simpl in H; rewrite Hupd in H; simpl in H;
        injection H as <- <-; simpl;
        rewrite (filter_update_rows_by f_id) by reflexivity; rewrite Hf; simpl;
        rewrite Nat.eqb_refl; (split; [reflexivity |]); (split; [reflexivity |]);
        eexists; (split; [reflexivity |]); unfold holds_analysis; simpl;
        repeat split; intros; congruence.
    + simpl in H. rewrite Han in H. simpl in H. rewrite Hf in H. simpl in H.
      rewrite Hupd in H. simpl in H.
      injection H as <- <-; simpl.
      rewrite (filter_update_rows_by f_id) by reflexivity. rewrite Hf. simpl.
      rewrite Nat.eqb_refl. split; [reflexivity |]. split; [reflexivity |].
      eexists; split; [reflexivity |]. unfold holds_analysis; simpl.
      repeat split; intros; congruence.
Qed.

(** X10. Feedback is upserted by response id.  In a store that accepts writes to
    the feedback table and holds at most one feedback row for the response,
    analysing two answers for the same response, each with a text to analyse,
    leaves exactly one feedback row for it: the row of the first analysis
    (updated in place, same id), carrying the analysis. *)
Theorem feedback_upsert_by_response responseId (first second : SaveArgs) (w : World) :
  analyzable (responseType first) (responseText first) (mediaUrl first) = true ->
  analyzable (responseType second) (responseText second) (mediaUrl second) = true ->
  feedback_insert_error (faults w) = None ->
  feedback_update_error (faults w) = None ->
  length (feedback_of_response responseId w) <= 1 ->
  exists row1 row2,
    feedback_of_response responseId (analysed responseId first w) = [row1]
    /\ feedback_of_response responseId
         (analysed responseId second (analysed responseId first w)) = [row2]
    /\ f_id row2 = f_id row1
    /\ holds_analysis generateDefaultFeedback row2
    /\ (forall f0, feedback_of_response responseId w = [f0] -> f_id row1 = f_id f0).
Proof.
  intros Ha1 Ha2 Hins Hupd Hlen. unfold analysed.
  destruct (analyzeAndSaveFeedback responseId (questionText first) _ _ _ _ w)
    as [res1 w1] eqn:H1. cbn [snd].
  destruct (analyzeAndSaveFeedback responseId (questionText second) _ _ _ _ w1)
    as [res2 w2] eqn:H2. cbn [snd].
  destruct (feedback_upsert_step _ _ _ _ _ _ _ _ _ H1 Ha1 Hins Hupd Hlen)
    as (_ & Hf & row1 & Hr1 & _ & Hold & _).
  rewrite <- Hf in Hins, Hupd.
  assert (Hlen1 : length (feedback_of_response responseId w1) <= 1)
    by (rewrite Hr1; simpl; lia).
  destruct (feedback_upsert_step _ _ _ _ _ _ _ _ _ H2 Ha2 Hins Hupd Hlen1)
    as (_ & _ & row2 & Hr2 & Hans & Hold2 & _).
  exists row1, row2. repeat split; auto; try apply Hans.
Qed.

Lemma feedback_upsert_by_response_witness :
  exists row1 row2,
    feedback_of_response 5 (analysed 5 first_answer (empty_world no_faults)) = [row1]
    /\ feedback_of_response 5
         (analysed 5 second_answer (analysed 5 first_answer (empty_world no_faults))) = [row2]
    /\ f_id row2 = f_id row1
    /\ holds_analysis generateDefaultFeedback row2
    /\ (forall f0, feedback_of_response 5 (empty_world no_faults) = [f0] ->
                   f_id row1 = f_id f0).
Proof.
  apply (feedback_upsert_by_response 5 first_answer second_answer (empty_world no_faults));
    [reflexivity | reflexivity | reflexivity | reflexivity | simpl; lia].
Defined.

Lemma NoDup_map_injective {A B} (f : A -> B) (l : list A) x y :
  NoDup (map f l) -> In x l -> In y l -> f x = f y -> x = y.
Proof.
  induction l as [| a l IH]; simpl; intros Hnd Hx Hy Heq; [contradiction |].
  inversion Hnd as [| ? ? Hnotin Hnd']; subst.
  destruct Hx as [-> | Hx], Hy as [-> | Hy]; auto.
  - exfalso. apply Hnotin. rewrite Heq. now apply in_map.
  - exfalso. apply Hnotin. rewrite <- Heq. now apply in_map.
Qed.

Lemma update_rows_absent {A} (id_of : A -> Id) id f (rows : list A) :
  (forall r, In r rows -> id_of r <> id) -> update_rows id_of id f rows = rows.
Proof.
  unfold update_rows. induction rows as [| r rows IH]; simpl; intros H; [reflexivity |].
  destruct (Nat.eqb (id_of r) id) eqn:E.
  - apply Nat.eqb_eq in E. exfalso. apply (H r); auto.
  - rewrite IH; auto.
Qed.

Lemma single_some {A} (l : list A) x : single l = Some x -> l = [x].
Proof. destruct l as [| a [| b l]]; simpl; congruence. Qed.

(** X11. A submission for one question does not touch the responses of the other
    questions, provided response ids are unique and the next id is unused. *)
Theorem other_responses_untouched args w other :
  response_ids_unique w ->
  other <> questionId args ->
  responses_of_question other (submitted args w) = responses_of_question other w.
Proof.
  intros [Hnd Hfresh] Hne. unfold submitted.
  destruct (saveResponseWithFeedback args w) as [res w'] eqn:H. cbn [snd].
  assert (Hneq : Nat.eqb (questionId args) other = false)
    by (apply Nat.eqb_neq; congruence).
  (* the rows of the other question carry neither the id that is updated ... *)
  assert (Hexisting : forall id,
             select_response_id (questionId args) w = Some id ->
             forall r, In r (responses_of_question other w) -> r_id r <> id).
  { intros id Hsel r Hr Hid. unfold select_response_id in Hsel.
    destruct (single (responses_of_question (questionId args) w)) as [r0 |] eqn:Hs;
      [| discriminate].
    injection Hsel as <-. apply single_some in Hs.
    assert (Hr0 : In r0 (responses_of_question (questionId args) w))
      by (rewrite Hs; now left).
    apply filter_In in Hr0. destruct Hr0 as [Hr0 Hq0].
    apply filter_In in Hr. destruct Hr as [Hr Hq].
    assert (r = r0) by (eapply NoDup_map_injective; eauto). subst r0.
    apply Nat.eqb_eq in Hq0, Hq. congruence. }
  (* ... nor the id that is handed out. *)
  assert (Hnew : forall r, In r (responses_of_question other w) -> r_id r <> next_id w).
  { intros r Hr. apply filter_In in Hr. destruct Hr as [Hr _].
    rewrite Forall_forall in Hfresh. auto. }
  revert H. unfold saveResponseWithFeedback. unfold_monad.
  unfold insert_response, update_response.
  destruct (select_response_id (questionId args) w) as [id |] eqn:Hsel; simpl; intros H.
  - specialize (Hexisting id eq_refl).
    cases_of H; injection H as <- <-; use_feedback_effect;
      unfold responses_of_question in *;
      match goal with Hr : responses _ = _ |- _ => rewrite Hr; clear Hr end;
      try match goal with
          | E : responses_update_error (faults _) = _ |- _ => rewrite ?E
          end;
      destruct (transcribes _ _ _);
      repeat (rewrite filter_update_rows by reflexivity);
      repeat (rewrite (update_rows_absent _ _ _ (filter _ (responses w))) by assumption);
      reflexivity.
  - cases_of H; injection H as <- <-; use_feedback_effect;
      unfold responses_of_question in *;
      try match goal with Hr : responses _ = _ |- _ => rewrite Hr; clear Hr end;
      try destruct (transcribes _ _ _);
      try destruct (responses_update_error (faults w));
      repeat (rewrite filter_update_rows by reflexivity);
      rewrite ?filter_app; simpl; rewrite ?Hneq, ?app_nil_r;
      repeat (rewrite (update_rows_absent _ _ _ (filter _ (responses w))) by assumption);
      reflexivity.
Qed.

Lemma other_responses_untouched_witness :
  responses_of_question 3
    (submitted (mkSaveArgs 2 text (Some "I have 5 years of experience") None
                  "Tell me about your experience as a Nurse." "Nurse")
       (mkWorld [nurse] three_questions
          [earlier_answer; mkResponse 6 3 text (Some "In a senior role") None 4] [] [] 7 9
          no_faults))
  = responses_of_question 3
      (mkWorld [nurse] three_questions
         [earlier_answer; mkResponse 6 3 text (Some "In a senior role") None 4] [] [] 7 9
         no_faults).
Proof.
  apply (other_responses_untouched
           (mkSaveArgs 2 text (Some "I have 5 years of experience") None
              "Tell me about your experience as a Nurse." "Nurse")
           (mkWorld [nurse] three_questions
              [earlier_answer; mkResponse 6 3 text (Some "In a senior role") None 4] [] [] 7 9
              no_faults) 3).
  - split; simpl.
    + repeat constructor; simpl; intuition discriminate.
    + repeat constructor; simpl; discriminate.
  - simpl. discriminate.
Defined.

(** With a text to analyse and a storage service that accepts writes to the
    feedback table, the analysis succeeds and a feedback row of the response
    carries it afterwards. *)
Lemma analysis_is_stored responseId questionText responseText responseType jobRole mediaUrl
      w res w' :
  analyzeAndSaveFeedback responseId questionText responseText responseType jobRole mediaUrl w
  = (res, w') ->
  analyzable responseType responseText mediaUrl = true ->
  feedback_insert_error (faults w) = None ->
  feedback_update_error (faults w) = None ->
  res = Success generateDefaultFeedback
  /\ exists f,
       In f (feedback w')
       /\ f_response_id f = responseId
       /\ holds_analysis generateDefaultFeedback f.
Proof.
  intros H Han Hins Hupd.
  assert (Hupdated : forall f0 rows,
             In f0 rows -> f_response_id f0 = responseId ->
             exists f, In f (update_rows f_id (f_id f0) (set_analysis generateDefaultFeedback) rows)
                       /\ f_response_id f = responseId
                       /\ holds_analysis generateDefaultFeedback f).
  { intros f0 rows Hin Hrid. exists (set_analysis generateDefaultFeedback f0). split.
    - unfold update_rows. apply in_map_iff. exists f0. now rewrite Nat.eqb_refl.
    - split; [exact Hrid | repeat split]. }
  unfold analyzable in Han.
  unfold analyzeAndSaveFeedback, transcribeMedia, analyzeResponse, try_catch in H.
  unfold_monad_in H.
  unfold update_response, select_feedback_id, update_feedback, insert_feedback in H.
  destruct (single (filter (fun f => Nat.eqb (f_response_id f) responseId) (feedback w)))
    as [f0 |] eqn:Hs.
  - apply single_some in Hs.
    assert (Hin : In f0 (filter (fun f => Nat.eqb (f_response_id f) responseId) (feedback w)))
      by (rewrite Hs; now left).
    apply filter_In in Hin. destruct Hin as [Hin Hrid]. apply Nat.eqb_eq in Hrid.
    destruct (transcribes responseType responseText mediaUrl) eqn:Htr; simpl in Han.
    + destruct (responses_update_error (faults w)); simpl in H; rewrite Hs in H;
        simpl in H; rewrite Hupd in H; simpl in H; injection H as <- <-;
        (split; [reflexivity |]); simpl; now apply Hupdated.
    + simpl in H. rewrite Han in H. simpl in H. rewrite Hs in H. simpl in H.
      rewrite Hupd in H. simpl in H. injection H as <- <-.
      split; [reflexivity |]. simpl. now apply Hupdated.
  - destruct (transcribes responseType responseText mediaUrl) eqn:Htr; simpl in Han.
    + destruct (responses_update_error (faults w)); simpl in H; rewrite Hs in H;
        simpl in H; rewrite Hins in H; simpl in H; injection H as <- <-;
        (split; [reflexivity |]); simpl;
        eexists; (split; [apply in_or_app; right; left; reflexivity |]);
        repeat split.
    + simpl in H. rewrite Han in H. simpl in H. rewrite Hs in H. simpl in H.
      rewrite Hins in H. simpl in H. injection H as <- <-.
      split; [reflexivity |]. simpl.
      eexists; split; [apply in_or_app; right; left; reflexivity |]. repeat split.
Qed.

(** A submission with a text to analyse, in a store that accepts every write
    and holds at most one response for the question, succeeds: afterwards
    exactly one response row holds the answer and a feedback row for it holds
    the analysis. *)
Lemma submission_succeeds args w res w' :
  saveResponseWithFeedback args w = (res, w') ->
  analyzable (responseType args) (responseText args) (mediaUrl args) = true ->
  faults w = no_faults ->
  length (responses_of_question (questionId args) w) <= 1 ->
  exists row f,
    res = Success (r_id row, generateDefaultFeedback)
    /\ responses_of_question (questionId args) w' = [row]
    /\ holds_answer args row
    /\ In f (feedback w')
    /\ f_response_id f = r_id row
    /\ holds_analysis generateDefaultFeedback f.
Proof.
  intros H Han Hf Hlen.
  assert (Hins : responses_insert_error (faults w) = None) by now rewrite Hf.
  assert (Hupd : responses_update_error (faults w) = None) by now rewrite Hf.
  destruct (upsert_step _ _ _ _ H Hins Hupd Hlen) as (row & Hrow & Hans & Hold & Hnew).
  exists row.
  unfold saveResponseWithFeedback in H. unfold_monad_in H.
  unfold select_response_id, insert_response, update_response in H.
  destruct (responses_of_question (questionId args) w) as [| r0 [| r1 rest]] eqn:Hq;
    simpl in Hlen; try lia; simpl in H; rewrite ?Hins, ?Hupd in H; simpl in H.
  - destruct (analyzeAndSaveFeedback _ _ _ _ _ _ _) as [r1 w1] eqn:Ha.
    apply analysis_is_stored in Ha; auto; try (simpl; now rewrite Hf).
    destruct Ha as (-> & f & Hin & Hrid & Hhold). injection H as <- <-.
    exists f. rewrite (Hnew eq_refl). auto 10.
  - destruct (analyzeAndSaveFeedback _ _ _ _ _ _ _) as [r1 w1] eqn:Ha.
    apply analysis_is_stored in Ha; auto; try (simpl; now rewrite Hf).
    destruct Ha as (-> & f & Hin & Hrid & Hhold). injection H as <- <-.
    exists f. destruct (Hold r0 eq_refl) as [-> _]. auto 10.
Qed.

(** What an action can do to the interviews table. *)
Lemma createInterview_interviews random formData w :
  interviews (snd (createInterviewWithQuestions random formData w)) = interviews w
  \/ interviews (snd (createInterviewWithQuestions random formData w))
     = interviews w ++ [new_interview formData w].
Proof.
  destruct (createInterviewWithQuestions random formData w) as [res w'] eqn:H.
  unfold createInterviewWithQuestions, generateAndSaveQuestions in H. unfold_monad_in H.
  unfold insert_interview, insert_questions, new_interview in *.
  cases_of H; injection H as <- <-; simpl in *;
    repeat match goal with
           | E : (_, _) = (_, _) |- _ => injection E as <- <-
           | E : Some _ = Some _ |- _ => injection E as <-
           end;
    simpl; auto.
Qed.

(** X12. Completing an interview that the store does not hold changes nothing, and
    is reported as a success all the same. *)
Theorem completing_unknown_interview_succeeds id w :
  Forall (fun i => i_id i <> id) (interviews w) ->
  completeInterview id w = (Success tt, w).
Proof.
  intros Hnone. unfold completeInterview. unfold_monad. unfold update_interview_status.
  simpl. destruct (interviews_update_error (faults w)); [reflexivity |].
  assert (Hmap : map (set_status completed (clock w) id) (interviews w) = interviews w).
  { induction (interviews w) as [| i l IH]; simpl; [reflexivity |].
    inversion Hnone as [| ? ? Hi Hl]; subst. rewrite IH by assumption.
    unfold set_status. apply Nat.eqb_neq in Hi. now rewrite Hi. }
  rewrite Hmap. destruct w; reflexivity.
Qed.

Lemma completing_unknown_interview_succeeds_witness :
  completeInterview 42 (store_with [] no_faults) = (Success tt, store_with [] no_faults).
Proof.
  apply (completing_unknown_interview_succeeds 42 (store_with [] no_faults)).
  repeat constructor. simpl. discriminate.
Defined.

End ActionProperties.

(** ** The interview session *)

Module SessionProperties.

Import Store Actions Session ActionFacts SessionFacts ActionProperties Vocabulary.

Lemma set_status_consistent now id i :
  completion_consistent i -> completion_consistent (set_status completed now id i).
Proof.
  unfold completion_consistent, set_status. intros H.
  destruct (Nat.eqb (i_id i) id); [| exact H].
  simpl. split; [discriminate | reflexivity].
Qed.

Lemma completeInterview_interviews id w :
  interviews (snd (completeInterview id w)) = interviews w
  \/ interviews (snd (completeInterview id w))
     = map (set_status completed (clock w) id) (interviews w).
Proof.
  rewrite completeInterview_effect. simpl.
  destruct (interviews_update_error (faults w)); auto.
Qed.

(** X13. Every step of the flow keeps the interviews consistent: if each stored
    interview is completed exactly when it has a completion time, this is
    still so after creating an interview, after submitting a response, after
    completing an interview and after a run of [handleNextQuestion]. *)
Theorem completion_stays_consistent random formData args id interview questions s w :
  Forall completion_consistent (interviews w) ->
  Forall completion_consistent
    (interviews (snd (createInterviewWithQuestions random formData w)))
  /\ Forall completion_consistent (interviews (submitted args w))
  /\ Forall completion_consistent (interviews (snd (completeInterview id w)))
  /\ Forall completion_consistent
       (interviews (snd (after_next interview questions (s, w)))).
Proof.
  intros Hinv.
  assert (Hcomplete : forall id0 w0, Forall completion_consistent (interviews w0) ->
            Forall completion_consistent (interviews (snd (completeInterview id0 w0)))).
  { intros id0 w0 H0. destruct (completeInterview_interviews id0 w0) as [-> | ->]; auto.
    apply Forall_map. eapply Forall_impl; [| exact H0].
    intros i. apply set_status_consistent. }
  assert (Hsave : forall a w0, Forall completion_consistent (interviews w0) ->
            Forall completion_consistent
              (interviews (snd (saveResponseWithFeedback a w0)))).
  { intros a w0 H0. destruct (saveResponseWithFeedback a w0) as [res w1] eqn:Hs.
    destruct (saveResponseWithFeedback_frame _ _ _ _ Hs) as (Hi & _).
    cbn [snd]. now rewrite Hi. }
  repeat split.
  - destruct (createInterview_interviews random formData w) as [-> | ->]; auto.
    apply Forall_app. split; auto. constructor; [| constructor].
    unfold completion_consistent, new_interview. simpl. split; [discriminate | congruence].
  - apply Hsave, Hinv.
  - apply Hcomplete, Hinv.
  - unfold after_next.
    destruct (nth_error questions (currentQuestionIndex s)) as [q |] eqn:Hq.
    + rewrite (handleNextQuestion_run _ _ _ _ _ Hq).
      destruct (needs_upload s && _); [exact Hinv |].
      assert (Hup : Forall completion_consistent (interviews (uploaded interview q s w))).
      { destruct (uploaded_frame interview q s w) as (Hi & _). now rewrite Hi. }
      specialize (Hsave (save_args interview q s) _ Hup).
      destruct (saveResponseWithFeedback _ _) as [res w1]. simpl in Hsave.
      destruct (currentQuestionIndex s <? length questions - 1); simpl; auto.
    + unfold handleNextQuestion. simpl. rewrite Hq. exact Hinv.
Qed.

Lemma completion_stays_consistent_witness :
  Forall completion_consistent
    (interviews (snd (createInterviewWithQuestions always_first
                        (mkForm "Practice" "Nurse" "" "") (store_with [] no_faults))))
  /\ Forall completion_consistent
       (interviews (submitted first_answer (store_with [] no_faults)))
  /\ Forall completion_consistent
       (interviews (snd (completeInterview 1 (store_with [] no_faults))))
  /\ Forall completion_consistent
       (interviews (snd (after_next nurse three_questions
                           (typed 2 "I stayed calm", store_with [] no_faults)))).
Proof.
  apply (completion_stays_consistent always_first (mkForm "Practice" "Nurse" "" "")
           first_answer 1 nurse three_questions (typed 2 "I stayed calm")
           (store_with [] no_faults)).
  repeat constructor; simpl; [discriminate | congruence].
Defined.

(** X14. The cursor never leaves the questions: from a valid index, neither
    [handleNextQuestion] (whatever the storage service answers) nor
    [handlePreviousQuestion] leads to an index outside the list, and each
    moves the cursor by at most one. *)
Theorem cursor_stays_in_range interview questions s w :
  currentQuestionIndex s < length questions ->
  let next := currentQuestionIndex (fst (after_next interview questions (s, w))) in
  let previous := currentQuestionIndex (handlePreviousQuestion s) in
  next < length questions
  /\ (next = currentQuestionIndex s \/ next = currentQuestionIndex s + 1)
  /\ previous < length questions
  /\ (previous = currentQuestionIndex s \/ previous + 1 = currentQuestionIndex s).
Proof.
  intros Hidx. cbv zeta.
  assert (Hnext :
            currentQuestionIndex (fst (after_next interview questions (s, w)))
            = currentQuestionIndex s
            \/ (currentQuestionIndex s < length questions - 1
                /\ currentQuestionIndex (fst (after_next interview questions (s, w)))
                   = currentQuestionIndex s + 1)).
  { unfold after_next.
    destruct (nth_error questions (currentQuestionIndex s)) as [q |] eqn:Hq.
    - rewrite (handleNextQuestion_run _ _ _ _ _ Hq).
      destruct (needs_upload s && _); [left; reflexivity |].
      destruct (saveResponseWithFeedback _ _) as [res w1].
      destruct (currentQuestionIndex s <? length questions - 1) eqn:Hlt; simpl.
      + right. apply Nat.ltb_lt in Hlt. auto.
      + left. reflexivity.
    - unfold handleNextQuestion. simpl. rewrite Hq. left. reflexivity. }
  unfold handlePreviousQuestion.
  destruct (0 <? currentQuestionIndex s) eqn:Hpos; simpl.
  - apply Nat.ltb_lt in Hpos. destruct Hnext as [-> | [Hlt ->]]; repeat split; auto; lia.
  - destruct Hnext as [-> | [Hlt ->]]; repeat split; auto; lia.
Qed.

Lemma cursor_stays_in_range_witness :
  let next := currentQuestionIndex
                (fst (after_next nurse three_questions
                        (typed 2 "I stayed calm", store_with [] feedback_refused))) in
  let previous := currentQuestionIndex (handlePreviousQuestion (typed 2 "I stayed calm")) in
  next < length three_questions
  /\ (next = 2 \/ next = 2 + 1)
  /\ previous < length three_questions
  /\ (previous = 2 \/ previous + 1 = 2).
Proof.
  apply (cursor_stays_in_range nurse three_questions (typed 2 "I stayed calm")
           (store_with [] feedback_refused)).
  simpl. lia.
Defined.

(** X15. Going on and back.  After [handleNextQuestion] has moved on from a question
    that is not the last one, [handlePreviousQuestion] returns to it; the
    answer given there is not shown again (the input is empty, no blob is
    held), so the Next button is disabled until a new answer is entered. *)
Theorem next_then_previous_returns interview questions s w q :
  nth_error questions (currentQuestionIndex s) = Some q ->
  currentQuestionIndex s < length questions - 1 ->
  needs_upload s = false \/ upload_error (faults w) = None ->
  let back := handlePreviousQuestion (fst (after_next interview questions (s, w))) in
  currentQuestionIndex back = currentQuestionIndex s
  /\ textResponse back = ""%string
  /\ videoBlob back = None
  /\ audioBlob back = None
  /\ next_disabled back = true.
Proof.
  intros Hq Hlt Hup. cbv zeta. unfold after_next.
  rewrite (handleNextQuestion_run _ _ _ _ _ Hq).
  assert (Hno : needs_upload s
                && match upload_error (faults w) with Some _ => true | None => false end
                = false).
  { destruct Hup as [-> | ->]; [reflexivity | apply andb_false_r]. }
  rewrite Hno.
  destruct (saveResponseWithFeedback _ _) as [res w1].
  apply Nat.ltb_lt in Hlt. rewrite Hlt. cbn [fst snd].
  unfold handlePreviousQuestion.
  change (currentQuestionIndex (advanced (result_toast res) s))
    with (currentQuestionIndex s + 1).
  assert (Hpos : (0 <? currentQuestionIndex s + 1) = true) by (apply Nat.ltb_lt; lia).
  rewrite Hpos. unfold next_disabled. simpl.
  repeat split; try lia.
  destruct (selectedType s); simpl; rewrite ?orb_true_r; reflexivity.
Qed.

Lemma next_then_previous_returns_witness :
  let back := handlePreviousQuestion
                (fst (after_next nurse three_questions
                        (typed 1 "In a senior role", store_with [] no_faults))) in
  currentQuestionIndex back = 1
  /\ textResponse back = ""%string
  /\ videoBlob back = None
  /\ audioBlob back = None
  /\ next_disabled back = true.
Proof.
  apply (next_then_previous_returns nurse three_questions (typed 1 "In a senior role")
           (store_with [] no_faults)
           (mkQuestionRow 3 1 "Where do you see yourself in 5 years?" (Some "general") 2 0));
    [reflexivity | simpl; lia | left; reflexivity].
Defined.

(** X16. A refused upload can be retried: the recording is still held, nothing is
    being submitted any more, and the Next button is enabled again. *)
Theorem refused_upload_can_be_retried interview questions s w q :
  nth_error questions (currentQuestionIndex s) = Some q ->
  needs_upload s = true ->
  upload_error (faults w) <> None ->
  let s' := fst (after_next interview questions (s, w)) in
  selectedType s' = selectedType s
  /\ videoBlob s' = videoBlob s
  /\ audioBlob s' = audioBlob s
  /\ isSubmitting s' = false
  /\ next_disabled s' = false.
Proof.
  intros Hq Hneed Herr. cbv zeta. unfold after_next.
  rewrite (handleNextQuestion_run _ _ _ _ _ Hq). rewrite Hneed.
  destruct (upload_error (faults w)); [| contradiction]. cbn [andb fst snd].
  unfold next_disabled, needs_upload in *. simpl.
  destruct (selectedType s), (videoBlob s), (audioBlob s); try discriminate; auto.
Qed.

Lemma refused_upload_can_be_retried_witness :
  let s' := fst (after_next nurse three_questions
                   (recorded 0 "webm", store_with [] upload_refused)) in
  selectedType s' = video
  /\ videoBlob s' = Some "webm"%string
  /\ audioBlob s' = None
  /\ isSubmitting s' = false
  /\ next_disabled s' = false.
Proof.
  apply (refused_upload_can_be_retried nurse three_questions (recorded 0 "webm")
           (store_with [] upload_refused)
           (mkQuestionRow 2 1 "Tell me about your experience as a Nurse."
              (Some "behavioral") 1 0));
    [reflexivity | reflexivity | discriminate].
Defined.

Lemma enabled_next_is_analyzable interview q s :
  next_disabled s = false ->
  analyzable (responseType (save_args interview q s)) (responseText (save_args interview q s))
    (mediaUrl (save_args interview q s)) = true.
Proof.
  unfold next_disabled, save_args, analyzable, transcribes, needs_upload. simpl.
  destruct (isSubmitting s); [discriminate |].
  destruct (selectedType s), (videoBlob s), (audioBlob s); simpl;
    try discriminate; try reflexivity;
    destruct (JSString.truthy (textResponse s)); simpl; try discriminate; reflexivity.
Qed.

Lemma completeInterview_keeps_answers id w :
  responses (snd (completeInterview id w)) = responses w
  /\ feedback (snd (completeInterview id w)) = feedback w.
Proof.
  rewrite completeInterview_effect. simpl.
  destruct (interviews_update_error (faults w)); auto.
Qed.

(** X17. The step as the user sees it.  When the Next button is enabled, the
    storage service accepts every write and the store holds at most one
    response for the current question, pressing Next on a question that is
    not the last one shows "Response saved" and nothing more, and pressing it
    on the last question shows "Response saved" followed by "Interview
    completed"; in both cases the store then holds exactly one response for
    the question, with the answer given (for a recording: its URL and the
    transcription), and a feedback row for that response with the
    analysis. *)
Theorem enabled_next_saves_answer interview questions s w q :
  nth_error questions (currentQuestionIndex s) = Some q ->
  next_disabled s = false ->
  faults w = no_faults ->
  length (responses_of_question (q_id q) w) <= 1 ->
  let c' := after_next interview questions (s, w) in
  ((currentQuestionIndex s + 1 < length questions
    /\ toasts (fst c') = toast_saved :: toasts s)
   \/ (currentQuestionIndex s + 1 = length questions
       /\ toasts (fst c') = toast_completed :: toast_saved :: toasts s))
  /\ exists row f,
       responses_of_question (q_id q) (snd c') = [row]
       /\ holds_answer (save_args interview q s) row
       /\ In f (feedback (snd c'))
       /\ f_response_id f = r_id row
       /\ holds_analysis generateDefaultFeedback f.
Proof.
  intros Hq Henabled Hf Hlen. cbv zeta. unfold after_next.
  assert (Hidx : currentQuestionIndex s < length questions)
    by (apply nth_error_Some; congruence).
  rewrite (handleNextQuestion_run _ _ _ _ _ Hq). rewrite Hf. cbn [upload_error no_faults].
  rewrite andb_false_r.
  destruct (uploaded_frame interview q s w) as (_ & _ & Hr & _ & Hfu & _ & _).
  destruct (saveResponseWithFeedback _ _) as [res w1] eqn:Hsave.
  assert (Hlen' : length (responses_of_question (questionId (save_args interview q s))
                            (uploaded interview q s w)) <= 1).
  { unfold responses_of_question. rewrite Hr. exact Hlen. }
  assert (Hf' : faults (uploaded interview q s w) = no_faults) by congruence.
  destruct (submission_succeeds _ _ _ _ Hsave (enabled_next_is_analyzable interview q s Henabled)
              Hf' Hlen') as (row & f & -> & Hrow & Hans & Hin & Hrid & Hhold).
  change (questionId (save_args interview q s)) with (q_id q) in Hrow.
  destruct (currentQuestionIndex s <? length questions - 1) eqn:Hlast; cbn [fst snd].
  - apply Nat.ltb_lt in Hlast.
    split; [left; split; [lia | reflexivity] |]. exists row, f. auto.
  - apply Nat.ltb_ge in Hlast.
    destruct (completeInterview_keeps_answers (i_id interview) w1) as [Hkr Hkf].
    split; [right; split; [lia | reflexivity] |]. exists row, f.
    unfold responses_of_question in *. rewrite Hkr, Hkf. auto.
Qed.

Lemma enabled_next_saves_answer_witness :
  let c' := after_next nurse three_questions
              (recorded 2 "webm", store_with [earlier_answer] no_faults) in
  ((2 + 1 < length three_questions
    /\ toasts (fst c') = toast_saved :: toasts (recorded 2 "webm"))
   \/ (2 + 1 = length three_questions
       /\ toasts (fst c') = toast_completed :: toast_saved :: toasts (recorded 2 "webm")))
  /\ exists row f,
       responses_of_question 4 (snd c') = [row]
       /\ holds_answer
            (save_args nurse
               (mkQuestionRow 4 1
                  "Describe a challenging situation you faced in your previous role."
                  (Some "behavioral") 3 0)
               (recorded 2 "webm")) row
       /\ In f (feedback (snd c'))
       /\ f_response_id f = r_id row
       /\ holds_analysis generateDefaultFeedback f.
Proof.
  apply (enabled_next_saves_answer nurse three_questions (recorded 2 "webm")
           (store_with [earlier_answer] no_faults)
           (mkQuestionRow 4 1
              "Describe a challenging situation you faced in your previous role."
              (Some "behavioral") 3 0));
    [reflexivity | reflexivity | reflexivity | simpl; lia].
Defined.

(** X18. The handler catches everything: on a question that exists it returns
    normally and the state is no longer submitting.  The loading flag of the
    feedback is reset as well, except when the upload was refused: then it is
    left set. *)
Theorem handler_returns_and_stops_submitting interview questions s w q :
  nth_error questions (currentQuestionIndex s) = Some q ->
  fst (handleNextQuestion interview questions (s, w)) = Return tt
  /\ isSubmitting (fst (after_next interview questions (s, w))) = false
  /\ feedbackLoading (fst (after_next interview questions (s, w)))
     = needs_upload s && match upload_error (faults w) with Some _ => true | None => false end.
Proof.
  intros Hq. unfold after_next. rewrite (handleNextQuestion_run _ _ _ _ _ Hq).
  destruct (needs_upload s && _); [repeat split |].
  destruct (saveResponseWithFeedback _ _) as [res w1].
  destruct (currentQuestionIndex s <? length questions - 1); repeat split.
Qed.

Lemma handler_returns_and_stops_submitting_witness :
  fst (handleNextQuestion nurse three_questions
         (recorded 0 "webm", store_with [] upload_refused)) = Return tt
  /\ isSubmitting (fst (after_next nurse three_questions
                          (recorded 0 "webm", store_with [] upload_refused))) = false
  /\ feedbackLoading (fst (after_next nurse three_questions
                             (recorded 0 "webm", store_with [] upload_refused)))
     = needs_upload (recorded 0 "webm")
       && match upload_error (faults (store_with [] upload_refused)) with
          | Some _ => true
          | None => false
          end.
Proof.
  apply (handler_returns_and_stops_submitting nurse three_questions (recorded 0 "webm")
           (store_with [] upload_refused)
           (mkQuestionRow 2 1 "Tell me about your experience as a Nurse."
              (Some "behavioral") 1 0)).
  reflexivity.
Defined.

(** X19. The progress bar: on a valid index it shows more than 0 and at most 100,
    and exactly 100 on the last question. *)
Theorem progress_reaches_100_on_last questions s :
  currentQuestionIndex s < length questions ->
  (0 < progress questions s)%Q
  /\ (progress questions s <= 100)%Q
  /\ ((progress questions s == 100)%Q <-> currentQuestionIndex s = length questions - 1).
Proof.
  intros Hidx. unfold progress.
  destruct (length questions) as [| m] eqn:Hlen; [lia |].
  rewrite Nat.add_1_r.
  unfold Qdiv, Qmult, Qinv, Qlt, Qle, Qeq. simpl.
  rewrite ?Pos.mul_1_r, ?Z.mul_1_r.
  pose proof (Pos2Z.is_pos (Pos.of_succ_nat (currentQuestionIndex s))) as Ha.
  pose proof (Pos2Z.is_pos (Pos.of_succ_nat m)) as Hn.
  assert (Hle : (Z.pos (Pos.of_succ_nat (currentQuestionIndex s))
                 <= Z.pos (Pos.of_succ_nat m))%Z)
    by (rewrite !Znat.Zpos_P_of_succ_nat; lia).
  assert (Heq : Z.pos (Pos.of_succ_nat (currentQuestionIndex s))
                = Z.pos (Pos.of_succ_nat m) <-> currentQuestionIndex s = S m - 1)
    by (rewrite !Znat.Zpos_P_of_succ_nat; lia).
  repeat split; try lia.
Qed.

Lemma progress_reaches_100_on_last_witness :
  (0 < progress three_questions (typed 2 "I stayed calm"))%Q
  /\ (progress three_questions (typed 2 "I stayed calm") <= 100)%Q
  /\ ((progress three_questions (typed 2 "I stayed calm") == 100)%Q
      <-> currentQuestionIndex (typed 2 "I stayed calm") = length three_questions - 1).
Proof.
  apply (progress_reaches_100_on_last three_questions (typed 2 "I stayed calm")).
  simpl. lia.
Defined.

End SessionProperties.

(** ** The results page *)

Module ResultsProperties.

Import Store Results ResultsTheorems Vocabulary.

Lemma set_add_spec x set :
  (NoDup set -> NoDup (set_add x set))
  /\ forall y, In y (set_add x set) <-> In y set \/ y = x.
Proof.
  unfold set_add. destruct (existsb (String.eqb x) set) eqn:E.
  - split; [auto |]. intros y. split; [auto |].
    intros [H | ->]; [exact H |].
    apply existsb_exists in E. destruct E as (z & Hz & Heq).
    apply String.eqb_eq in Heq. now subst.
  - split.
    + intros Hnd. apply NoDup_app; auto.
      * repeat constructor. intros [].
      * intros y Hy [Heq | []]. subst y.
        assert (existsb (String.eqb x) set = true); [| congruence].
        apply existsb_exists. exists x. split; [exact Hy | apply String.eqb_refl].
    + intros y. rewrite in_app_iff. simpl. intuition.
Qed.

Lemma fold_set_add_spec items set :
  (NoDup set -> NoDup (fold_left (fun acc x => set_add x acc) items set))
  /\ forall y, In y (fold_left (fun acc x => set_add x acc) items set)
               <-> In y set \/ In y items.
Proof.
  revert set; induction items as [| x items IH]; intros set; simpl.
  - split; [auto |]. intuition.
  - destruct (IH (set_add x set)) as [Hnd Hin].
    destruct (set_add_spec x set) as [Hnd1 Hin1].
    split; [auto |].
    intros y. rewrite Hin, Hin1. intuition.
Qed.

Lemma fold_add_items field fs set :
  fold_left (fun acc f => add_items (field f) acc) fs set
  = fold_left (fun acc x => set_add x acc) (items_of field fs) set.
Proof.
  unfold items_of.
  revert set; induction fs as [| f fs IH]; intros set; simpl; [reflexivity |].
  rewrite fold_left_app, IH. unfold add_items.
  destruct (field f); reflexivity.
Qed.

Lemma collect_as_fold field questions :
  collect field questions
  = fold_left (fun acc x => set_add x acc) (items_of field (all_feedback questions)) [].
Proof.
  unfold collect, all_feedback.
  rewrite (fold_left_flat_map
             (fun acc r => fold_left (fun acc f => add_items (field f) acc)
                             (response_feedback r) acc) question_responses).
  rewrite (fold_left_flat_map (fun acc f => add_items (field f) acc) response_feedback).
  rewrite <- flat_map_flat_map. apply fold_add_items.
Qed.

(** X20. The lists of strengths and of improvement areas have set semantics: no
    entry appears twice, and an entry is listed exactly when some feedback
    record of some response names it; records whose field is [null] add
    nothing. *)
Theorem collected_items_form_a_set questions :
  NoDup (getAllStrengths questions)
  /\ NoDup (getAllImprovementAreas questions)
  /\ (forall x, In x (getAllStrengths questions)
                <-> exists f l, In f (all_feedback questions)
                                /\ f_strengths f = Some l /\ In x l)
  /\ (forall x, In x (getAllImprovementAreas questions)
                <-> exists f l, In f (all_feedback questions)
                                /\ f_improvement_areas f = Some l /\ In x l).
Proof.
  assert (Hitems : forall field x,
             In x (items_of field (all_feedback questions))
             <-> exists f l, In f (all_feedback questions) /\ field f = Some l /\ In x l).
  { intros field x. unfold items_of. rewrite in_flat_map. split.
    - intros (f & Hf & Hx). destruct (field f) as [l |] eqn:E; [| contradiction]. eauto.
    - intros (f & l & Hf & E & Hx). exists f. rewrite E. auto. }
  assert (Hgen : forall field,
             NoDup (collect field questions)
             /\ forall x, In x (collect field questions)
                          <-> exists f l, In f (all_feedback questions)
                                          /\ field f = Some l /\ In x l).
  { intros field. rewrite collect_as_fold.
    destruct (fold_set_add_spec (items_of field (all_feedback questions)) [])
      as [Hnd Hin].
    split; [apply Hnd; constructor |].
    intros x. rewrite Hin, <- Hitems. simpl. intuition. }
  unfold getAllStrengths, getAllImprovementAreas.
  destruct (Hgen f_strengths) as [H1 H2].
  destruct (Hgen f_improvement_areas) as [H3 H4].
  auto.
Qed.

Lemma counted_scores_are_present (P : Q -> Prop) fs :
  Forall P (present_scores fs) -> Forall P (counted_scores fs).
Proof.
  unfold present_scores, counted_scores.
  induction fs as [| f fs IH]; simpl; intros H; [constructor |].
  destruct (f_confidence_score f) as [x |]; simpl in *; [| auto].
  inversion H; subst. destruct (negb (Qeq_bool x 0)); simpl; auto.
Qed.

Lemma inject_succ n : (inject_Z (Z.of_nat (S n)) == inject_Z (Z.of_nat n) + 1)%Q.
Proof.
  rewrite Znat.Nat2Z.inj_succ. unfold Z.succ. rewrite inject_Z_plus. reflexivity.
Qed.

Lemma fold_Qplus_between scores a :
  Forall (fun x => 0 <= x <= 1)%Q scores ->
  (a <= fold_left Qplus scores a
   /\ fold_left Qplus scores a <= a + inject_Z (Z.of_nat (length scores)))%Q.
Proof.
  revert a; induction scores as [| x scores IH]; intros a H.
  - change (fold_left Qplus [] a) with a.
    change (inject_Z (Z.of_nat (@length Q []))) with 0%Q. split; lra.
  - inversion H as [| ? ? [Hx0 Hx1] Hrest]; subst.
    destruct (IH (a + x)%Q Hrest) as [Hlo Hhi].
    change (fold_left Qplus (x :: scores) a) with (fold_left Qplus scores (a + x)%Q).
    change (length (x :: scores)) with (S (length scores)).
    rewrite inject_succ. split; lra.
Qed.

(** X21. The overall score is a percentage: when every present score lies between
    0 and 1, it lies between 0 and 100. *)
Theorem overall_score_is_a_percentage questions :
  Forall (fun x => 0 <= x <= 1)%Q (present_scores (all_feedback questions)) ->
  (0 <= getOverallScore questions <= 100)%Q.
Proof.
  intros H. apply counted_scores_are_present in H.
  rewrite getOverallScore_counted. unfold mean_times_100.
  destruct (fold_Qplus_between _ 0%Q H) as [Hlo Hhi].
  destruct (0 <? length (counted_scores (all_feedback questions))) eqn:Hn; [| split; lra].
  apply Nat.ltb_lt in Hn.
  assert (Hpos : (0 < inject_Z (Z.of_nat (length (counted_scores (all_feedback questions)))))%Q).
  { change 0%Q with (inject_Z 0). rewrite <- Zlt_Qlt. lia. }
  set (total := fold_left Qplus (counted_scores (all_feedback questions)) 0%Q) in *.
  set (n := inject_Z (Z.of_nat (length (counted_scores (all_feedback questions))))) in *.
  assert (Hmean : (0 <= total / n <= 1)%Q).
  { split.
    - apply Qle_shift_div_l; [exact Hpos | lra].
    - apply Qle_shift_div_r; [exact Hpos | lra]. }
  destruct Hmean. split; lra.
Qed.

Lemma overall_score_is_a_percentage_witness :
  (0 <= getOverallScore [scored [Some (1 # 2); None; Some (1 # 1); Some (0 # 1)]] <= 100)%Q.
Proof.
  apply (overall_score_is_a_percentage [scored [Some (1 # 2); None; Some (1 # 1); Some (0 # 1)]]).
  repeat constructor; simpl; discriminate.
Defined.

Lemma binary64_fold_all_feedback questions acc :
  fold_left Binary64.add_question questions acc
  = fold_left Binary64.add_feedback (all_feedback questions) acc.
Proof.
  unfold Binary64.add_question, Binary64.add_response, all_feedback.
  rewrite (fold_left_flat_map
             (fun acc r => fold_left Binary64.add_feedback (response_feedback r) acc)
             question_responses).
  rewrite (fold_left_flat_map Binary64.add_feedback response_feedback).
  now rewrite flat_map_flat_map.
Qed.

Lemma binary64_fold_constant c fs t n :
  Forall (fun f => f_confidence_score f = Some c) fs ->
  Binary64.truthy (Binary64.of_Q c) = true ->
  fold_left Binary64.add_feedback fs (t, n)
  = (fold_left PrimFloat.add (repeat (Binary64.of_Q c) (length fs)) t, n + length fs).
Proof.
  intros Hall Hc. revert t n.
  induction Hall as [| f fs Hf _ IH]; intros t n.
  - simpl. now rewrite Nat.add_0_r.
  - change (fold_left Binary64.add_feedback (f :: fs) (t, n))
      with (fold_left Binary64.add_feedback fs (Binary64.add_feedback (t, n) f)).
    unfold Binary64.add_feedback at 2. rewrite Hf, Hc. cbn [fst snd].
    rewrite IH. cbn [length repeat fold_left]. f_equal. lia.
Qed.

(** Checked by running the binary64 operations for each count from 1 to
    1000. *)
Lemma default_scores_shown_as_70 n :
  1 <= n <= 1000 -> shown_as_70_in_yellow (default_score_binary64 n) = true.
Proof.
  intros Hn.
  assert (Hall : forallb (fun n => shown_as_70_in_yellow (default_score_binary64 n))
                   (seq 1 1000) = true) by (vm_compute; reflexivity).
  rewrite forallb_forall in Hall. apply Hall, in_seq. lia.
Qed.

(** In binary64 the overall score of default feedback is not always 70: the
    sum of three scores 0.7 is 2.0999999999999996, and the score comes out
    as 69.99999999999999. *)
Lemma three_default_scores_fall_short_of_70 :
  PrimFloat.ltb
    (Binary64.getOverallScore [scored [Some (7 # 10); Some (7 # 10); Some (7 # 10)]])
    (Binary64.of_nat 70) = true.
Proof. vm_compute. reflexivity. Qed.

(** X22. What the application shows today.  Every feedback record it writes carries
    the score of the default feedback, 0.7.  For an interview with at least
    one and at most 1000 feedback records, all with that score, the summary
    shows 70% in yellow, whatever was answered: computed in binary64 as the
    code does, [Math.round] of the overall score is 70 and [getScoreColor]
    gives "text-yellow-500".  (The overall score itself is not always 70 in
    binary64, see [three_default_scores_fall_short_of_70]; the rounding and
    the thresholds absorb the difference.) *)
Theorem overall_score_of_default_feedback questions :
  all_feedback questions <> [] ->
  length (all_feedback questions) <= 1000 ->
  Forall (fun f => f_confidence_score f = Some (a_confidence_score generateDefaultFeedback))
         (all_feedback questions) ->
  Binary64.Math_round (Binary64.getOverallScore questions) = Some 70%Z
  /\ Binary64.getScoreColor (Binary64.getOverallScore questions) = "text-yellow-500"%string.
Proof.
  intros Hne Hlen Hall.
  assert (Hscore : Binary64.getOverallScore questions
                   = default_score_binary64 (length (all_feedback questions))).
  { unfold Binary64.getOverallScore.
    rewrite binary64_fold_all_feedback,
      (binary64_fold_constant _ _ _ _ Hall) by (vm_compute; reflexivity).
    destruct (all_feedback questions) as [| f fs]; [contradiction | reflexivity]. }
  rewrite Hscore.
  assert (Hn : 1 <= length (all_feedback questions) <= 1000).
  { destruct (all_feedback questions); [contradiction | simpl in *; lia]. }
  pose proof (default_scores_shown_as_70 _ Hn) as Hshown.
  unfold shown_as_70_in_yellow in Hshown.
  apply andb_true_iff in Hshown. destruct Hshown as [Hround Hcolor].
  split.
  - destruct (Binary64.Math_round _) as [percent |]; [| discriminate].
    apply Z.eqb_eq in Hround. now subst.
  - now apply String.eqb_eq.
Qed.

Lemma overall_score_of_default_feedback_witness :
  Binary64.Math_round
    (Binary64.getOverallScore [scored [Some (7 # 10); Some (7 # 10); Some (7 # 10)]])
  = Some 70%Z
  /\ Binary64.getScoreColor
       (Binary64.getOverallScore [scored [Some (7 # 10); Some (7 # 10); Some (7 # 10)]])
     = "text-yellow-500"%string.
Proof.
  apply (overall_score_of_default_feedback
           [scored [Some (7 # 10); Some (7 # 10); Some (7 # 10)]]).
  - discriminate.
  - simpl. lia.
  - repeat constructor.
Defined.

(** X23. Opening and closing an item of the detailed view: [handleAccordionChange]
    flips the item it is called with (open becomes closed, closed becomes
    open) and leaves every other item as it is. *)
Theorem accordion_change_toggles_one_item value items :
  (In value (handleAccordionChange value items) <-> ~ In value items)
  /\ forall other, other <> value ->
       (In other (handleAccordionChange value items) <-> In other items).
Proof.
  unfold handleAccordionChange.
  destruct (existsb (String.eqb value) items) eqn:E.
  - apply existsb_exists in E. destruct E as (x & Hx & Heq).
    apply String.eqb_eq in Heq. subst x. split.
    + rewrite filter_In, String.eqb_refl. simpl. intuition discriminate.
    + intros other Hne. rewrite filter_In.
      apply String.eqb_neq in Hne. rewrite Hne. simpl. intuition.
  - assert (Hnot : ~ In value items).
    { intros Hin. assert (existsb (String.eqb value) items = true); [| congruence].
      apply existsb_exists. exists value. split; [exact Hin | apply String.eqb_refl]. }
    split.
    + rewrite in_app_iff. simpl. intuition.
    + intros other Hne. rewrite in_app_iff. simpl. intuition congruence.
Qed.

End ResultsProperties.

(** ** The recording timer *)

Module RecorderProperties.

Import Recorder Vocabulary.

Lemma colon_free_digits d : colon_free (DecimalString.NilEmpty.string_of_uint d) = true.
Proof. induction d; simpl; auto. Qed.

Lemma colon_free_app a b : colon_free (a ++ b) = colon_free a && colon_free b.
Proof.
  induction a as [| c a IH]; simpl; [reflexivity |].
  rewrite IH. apply andb_assoc.
Qed.

Lemma colon_free_zeros n : colon_free (zeros n) = true.
Proof. induction n; simpl; auto. Qed.

Lemma split_colon_app a b :
  colon_free a = true -> split_colon (a ++ String ":" b) = (a, b).
Proof.
  induction a as [| c a IH]; simpl; intros H; [reflexivity |].
  apply andb_true_iff in H. destruct H as [Hc Ha].
  destruct (Ascii.eqb c ":"); [discriminate |]. now rewrite IH.
Qed.

Lemma parse_nat_zeros n s : parse_nat (zeros n ++ s) = parse_nat s.
Proof.
  induction n as [| n IH]; [reflexivity |].
  unfold parse_nat in *. simpl.
  destruct (DecimalString.NilEmpty.uint_of_string (zeros n ++ s)) as [d |] eqn:E;
    destruct (DecimalString.NilEmpty.uint_of_string s) as [d' |] eqn:E';
    simpl in *; try discriminate; try reflexivity.
  now injection IH as <-.
Qed.

Lemma parse_nat_padStart width n : parse_nat (padStart width (toString n)) = Some n.
Proof.
  unfold padStart. rewrite parse_nat_zeros. unfold parse_nat, toString.
  rewrite DecimalString.NilEmpty.usu. simpl. now rewrite DecimalNat.Unsigned.of_to.
Qed.

(** X24. The displayed time is lossless: reading "minutes:seconds" back gives the
    number of seconds that was formatted, for every count of the timer. *)
Theorem formatTime_can_be_read_back seconds :
  parseTime (formatTime seconds) = Some seconds.
Proof.
  unfold parseTime, formatTime.
  change (padStart 2 (toString (seconds / 60)) ++ ":" ++ padStart 2 (toString (seconds mod 60)))%string
    with (padStart 2 (toString (seconds / 60))
          ++ String ":" (padStart 2 (toString (seconds mod 60))))%string.
  rewrite split_colon_app.
  - rewrite !parse_nat_padStart. f_equal.
    pose proof (Nat.div_mod_eq seconds 60). lia.
  - unfold padStart, toString. rewrite colon_free_app, colon_free_zeros, colon_free_digits.
    reflexivity.
Qed.

End RecorderProperties.

(** ** The creation form *)

Module PageProperties.

Import Store Actions Session NewInterview ActionFacts ActionProperties Vocabulary.

Arguments createInterviewWithQuestions : simpl never.

Lemma message_or_nonempty message dflt : dflt <> ""%string -> message_or message dflt <> ""%string.
Proof.
  unfold message_or. intros Hd.
  destruct message; simpl; [exact Hd | discriminate].
Qed.

(** What a successful creation leaves in the store. *)
Lemma createInterview_success random formData w id w' :
  createInterviewWithQuestions random formData w = (Success id, w') ->
  id = next_id w
  /\ interviews w' = interviews w ++ [new_interview formData w]
  /\ exists rows,
       questions w' = questions w ++ rows
       /\ 5 <= length rows <= 7
       /\ map q_order_number rows = seq 1 (length rows)
       /\ Forall (fun r => q_interview_id r = id) rows.
Proof.
  intros H.
  unfold createInterviewWithQuestions, generateAndSaveQuestions in H. unfold_monad_in H.
  unfold insert_interview, insert_questions in H.
  destruct (interviews_insert_error (faults w)); simpl in H; [discriminate |].
  destruct (generateInterviewQuestions random (form_jobRole formData)
              (JSString.or_null (form_industry formData))
              (JSString.or_null (form_difficulty formData)) 5) as [qs | e] eqn:Hgen;
    simpl in H; [| discriminate].
  destruct (questions_insert_error (faults w)); simpl in H; [discriminate |].
  injection H as <- <-. simpl.
  assert (Hlen : 5 <= length qs <= 7).
  { rewrite GeneratorTheorems.generateInterviewQuestions_eq in Hgen.
    destruct (is_inherited (form_jobRole formData)) eqn:Hin.
    - unfold generateDefaultQuestions in Hgen.
      rewrite (GeminiFacts.combinedQuestions_inherited _ _ Hin) in Hgen. discriminate.
    - destruct (GeneratorTheorems.generated_shape random (form_jobRole formData)
                  (JSString.or_null (form_industry formData))
                  (JSString.or_null (form_difficulty formData)) Hin) as (qs' & Hq' & Hl & _).
      congruence. }
  destruct (number_rows_view (next_id w) (S (next_id w)) (clock w) 0 qs)
    as (H1 & _ & H3 & _ & H5).
  assert (Hrows : length (number_rows (S (next_id w)) (clock w)
                            (questionsToInsert (next_id w) 0 qs)) = length qs).
  { rewrite <- (length_map q_question_text), H3. apply length_map. }
  repeat split; auto.
  eexists; split; [reflexivity |]. rewrite Hrows. auto.
Qed.

(** X25. Submitting the form.  The page never stays loading.  When it navigates, it
    navigates to an interview that is in the store, in progress, for the job
    role typed in, with five to seven questions numbered from 1, and no error
    is shown.  When it does not navigate, an error message is shown together
    with the "Failed to create interview" toast. *)
Theorem submit_navigates_to_a_seeded_interview random p w :
  p_pushed p = None ->
  let c' := after_submit random (p, w) in
  p_isLoading (fst c') = false
  /\ match p_pushed (fst c') with
     | Some id =>
         p_error (fst c') = None
         /\ (exists row,
               In row (interviews (snd c'))
               /\ i_id row = id
               /\ i_status row = in_progress
               /\ i_job_role row = p_jobRole p)
         /\ exists rows,
              questions (snd c') = questions w ++ rows
              /\ 5 <= length rows <= 7
              /\ map q_order_number rows = seq 1 (length rows)
              /\ Forall (fun r => q_interview_id r = id) rows
     | None =>
         exists message,
           p_error (fst c') = Some message
           /\ message <> ""%string
           /\ p_toasts (fst c') = toast_create_failed :: toast_creating :: p_toasts p
     end.
Proof.
  intros Hroute. cbv zeta. unfold after_submit, handleSubmit, set_page, call_action.
  unfold_monad. simpl.
  destruct (createInterviewWithQuestions random _ w) as [[id | e] w'] eqn:Hcreate; simpl.
  - split; [reflexivity |]. split; [reflexivity |].
    destruct (createInterview_success _ _ _ _ _ Hcreate) as (-> & Hi & rows & Hrows).
    split.
    + exists (new_interview (mkForm (p_title p) (p_jobRole p) (p_industry p) (p_difficulty p)) w).
      rewrite Hi. split; [apply in_or_app; right; now left |]. repeat split.
    + exists rows. exact Hrows.
  - split; [reflexivity |]. rewrite Hroute.
    eexists. split; [reflexivity |]. split; [| reflexivity].
    apply message_or_nonempty. discriminate.
Qed.

Lemma submit_navigates_to_a_seeded_interview_witness :
  let p := handleSelectTemplate (mkTemplate "Practice" "constructor" "" "advanced")
             NewInterviewPage in
  let c' := after_submit always_first (p, empty_world no_faults) in
  p_isLoading (fst c') = false
  /\ match p_pushed (fst c') with
     | Some id =>
         p_error (fst c') = None
         /\ (exists row,
               In row (interviews (snd c'))
               /\ i_id row = id
               /\ i_status row = in_progress
               /\ i_job_role row = p_jobRole p)
         /\ exists rows,
              questions (snd c') = questions (empty_world no_faults) ++ rows
              /\ 5 <= length rows <= 7
              /\ map q_order_number rows = seq 1 (length rows)
              /\ Forall (fun r => q_interview_id r = id) rows
     | None =>
         exists message,
           p_error (fst c') = Some message
           /\ message <> ""%string
           /\ p_toasts (fst c') = toast_create_failed :: toast_creating :: p_toasts p
     end.
Proof.
  apply (submit_navigates_to_a_seeded_interview always_first
           (handleSelectTemplate (mkTemplate "Practice" "constructor" "" "advanced")
              NewInterviewPage)
           (empty_world no_faults)).
  reflexivity.
Defined.

End PageProperties.
